(** * Image-batch augmentation ([cs231n/data_augmentation.py])

    A shallow embedding of the five batch transforms of the module
    ([random_flips], [random_crops], [random_contrast], [random_tint],
    [fixed_crops]) together with the part of Python's and numpy's indexing
    semantics they rely on.

    Conventions.
    - A numpy array of shape (N, C, H, W) is a record holding the shape and
      the samples as four nested lists (batch, channel, row, sample).
    - Python integers are [Z]; the module is Python 2 code, where [/] on two
      integers is floor division ([Z.div]).
    - Samples of the arithmetic transforms are binary64 floating-point
      numbers ([float]), numpy's [float64]; their operations round as the
      machine's do.
    - numpy's process-wide random generator is an explicit state threaded
      through the calls, specified by the documented range of its draws. *)

From Stdlib Require Import Floats ZArith String.
From stdpp Require Import base option list numbers strings gmap.

Local Open Scope Z_scope.

(** ** Python slices with unit step *)

(** [a:b] with either bound possibly omitted. *)
Record slice := Slice { start : option Z; stop : option Z }.

Definition from_to (a b : Z) : slice := Slice (Some a) (Some b).
Definition up_to (b : Z) : slice := Slice None (Some b).
Definition from (a : Z) : slice := Slice (Some a) None.

(** A bound is taken relative to the end when negative, and clipped to the
    axis. *)
Definition adjust_index (len i : Z) : Z :=
  if i <? 0 then Z.max (i + len) 0 else Z.min i len.

Definition slice_start (s : slice) (len : nat) : nat :=
  match start s with
  | None => 0%nat
  | Some a => Z.to_nat (adjust_index (Z.of_nat len) a)
  end.

Definition slice_stop (s : slice) (len : nat) : nat :=
  match stop s with
  | None => len
  | Some b => Z.to_nat (adjust_index (Z.of_nat len) b)
  end.

(** Number of positions selected on an axis of length [len]. *)
Definition slice_len (s : slice) (len : nat) : nat :=
  (slice_stop s len - slice_start s len)%nat.

(** [l[a:b]] *)
Definition getslice {B : Type} (s : slice) (l : list B) : list B :=
  take (slice_len s (length l)) (drop (slice_start s (length l)) l).

(** ** Four-dimensional arrays *)

Record ndarray (A : Type) := NdArray {
  shape : nat * nat * nat * nat;
  data : list (list (list (list A)))
}.
Arguments NdArray {A} _ _.
Arguments shape {A} _.
Arguments data {A} _.

Section Arrays.
Context {A : Type}.

(** The nested lists have the lengths the shape announces. *)
Definition rows_shaped (W : nat) (ch : list (list A)) : Prop :=
  Forall (λ r, length r = W) ch.

Definition channel_shaped (H W : nat) (ch : list (list A)) : Prop :=
  length ch = H ∧ rows_shaped W ch.

Definition image_shaped (C H W : nat) (img : list (list (list A))) : Prop :=
  length img = C ∧ Forall (channel_shaped H W) img.

Definition well_shaped (X : ndarray A) : Prop :=
  let '(N, C, H, W) := shape X in
  length (data X) = N ∧ Forall (image_shaped C H W) (data X).

(** [X[n, c, h, w]] *)
Definition sample (X : ndarray A) (n c h w : nat) : option A :=
  img ← data X !! n; ch ← img !! c; r ← ch !! h; r !! w.

(** [X[n]] *)
Definition image (X : ndarray A) (n : nat) : option (list (list (list A))) :=
  data X !! n.

(** [X[:, :, sh, sw]]: basic slicing of the two spatial axes. *)
Definition crop_channel (sh sw : slice) (ch : list (list A)) : list (list A) :=
  getslice sw <$> getslice sh ch.

Definition crop_image (sh sw : slice) (img : list (list (list A)))
    : list (list (list A)) :=
  crop_channel sh sw <$> img.

Definition getitem_hw (X : ndarray A) (sh sw : slice) : ndarray A :=
  let '(N, C, H, W) := shape X in
  NdArray (N, C, slice_len sh H, slice_len sw W)
          (crop_image sh sw <$> data X).

(** [img[:, :, ::-1]]: the samples of every row in reverse order. *)
Definition flip_channel (ch : list (list A)) : list (list A) :=
  reverse <$> ch.

Definition flip_image (img : list (list (list A))) : list (list (list A)) :=
  flip_channel <$> img.

(** [X[m]] for a boolean mask [m] over the batch axis. *)
Fixpoint getitem_mask {B : Type} (m : list bool) (l : list B) : list B :=
  match m, l with
  | true :: m', x :: l' => x :: getitem_mask m' l'
  | false :: m', _ :: l' => getitem_mask m' l'
  | _, _ => []
  end.

(** [out[m] = vals]: the selected positions of [out] receive the elements
    of [vals] in order. *)
Fixpoint setitem_mask {B : Type} (m : list bool) (out vals : list B) : list B :=
  match m, out with
  | true :: m', o :: out' =>
      match vals with
      | v :: vals' => v :: setitem_mask m' out' vals'
      | [] => o :: setitem_mask m' out' []
      end
  | false :: m', o :: out' => o :: setitem_mask m' out' vals
  | _, _ => out
  end.

(** [np.zeros_like(X)] and [np.zeros((N, C, H, W))] *)
Definition zeros (zero : A) (sh : nat * nat * nat * nat) : ndarray A :=
  let '(N, C, H, W) := sh in
  NdArray sh (replicate N (replicate C (replicate H (replicate W zero)))).

Definition zeros_like (zero : A) (X : ndarray A) : ndarray A :=
  zeros zero (shape X).
End Arrays.

(** ** Outcomes of a call *)

Inductive exn :=
| AssertionError
| ValueError (msg : string).

Inductive result (T : Type) :=
| Ok (v : T)
| Raise (e : exn).
Arguments Ok {T} _.
Arguments Raise {T} _.

(** ** [fixed_crops] *)

Definition fixed_crops {A : Type} (X : ndarray A) (crop_shape : Z * Z)
    (crop_type : string) : result (ndarray A) :=
  let '(N, C, H, W) := shape X in
  let '(HH, WW) := crop_shape in
  let x0 := (Z.of_nat W - WW) / 2 in
  let y0 := (Z.of_nat H - HH) / 2 in
  let x1 := x0 + WW in
  let y1 := y0 + HH in
  if String.eqb crop_type "center" then
    Ok (getitem_hw X (from_to y0 y1) (from_to x0 x1))
  else if String.eqb crop_type "ul" then
    Ok (getitem_hw X (up_to HH) (up_to WW))
  else if String.eqb crop_type "ur" then
    Ok (getitem_hw X (up_to HH) (from (- WW)))
  else if String.eqb crop_type "bl" then
    Ok (getitem_hw X (from (- HH)) (up_to WW))
  else if String.eqb crop_type "br" then
    Ok (getitem_hw X (from (- HH)) (from (- WW)))
  else
    Raise (ValueError ("Unrecognized crop type " +:+ crop_type)).

(** ** numpy's random generator *)

(** The generator behind [np.random] is a state that every draw advances.
    Only the documented ranges of the two primitive draws are assumed:
    [np.random.randint(high)] lies in [0, high) and
    [np.random.random_sample()] lies in [0, 1). *)
Class RandomState (G : Type) := {
  randint : Z → G → Z * G;
  random_sample : G → float * G;
  randint_range : ∀ high g, 0 < high → 0 ≤ (randint high g).1 < high;
  random_sample_range : ∀ g,
    (0 <=? (random_sample g).1)%float = true ∧
    ((random_sample g).1 <? 1)%float = true
}.

Section Draws.
Context {G : Type} {RS : RandomState G}.

(** [np.random.randint(high, size=k)] *)
Fixpoint randint_size (high : Z) (k : nat) (g : G) : list Z * G :=
  match k with
  | O => ([], g)
  | S k' =>
      let '(x, g1) := randint high g in
      let '(xs, g2) := randint_size high k' g1 in
      (x :: xs, g2)
  end.

(** [np.random.random_sample(k)] *)
Fixpoint random_sample_size (k : nat) (g : G) : list float * G :=
  match k with
  | O => ([], g)
  | S k' =>
      let '(u, g1) := random_sample g in
      let '(us, g2) := random_sample_size k' g1 in
      (u :: us, g2)
  end.

(** [np.random.random_sample((n, c))], filled row by row *)
Fixpoint random_sample_size2 (n c : nat) (g : G) : list (list float) * G :=
  match n with
  | O => ([], g)
  | S n' =>
      let '(r, g1) := random_sample_size c g in
      let '(rs, g2) := random_sample_size2 n' c g1 in
      (r :: rs, g2)
  end.

(** [np.random.uniform(low, high)]: numpy computes it from one draw [u]
    of [random_sample] as [low + (high - low) * u]. *)
Definition uniform (low high : float) (g : G) : float * G :=
  let '(u, g1) := random_sample g in
  ((low + (high - low) * u)%float, g1).
End Draws.

(** ** The randomised transforms *)

(** [mask == v] *)
Definition mask_eq (mask : list Z) (v : Z) : list bool :=
  (λ b, b =? v) <$> mask.

Section Transforms.
Context {G : Type} {RS : RandomState G}.

Definition random_flips {A : Type} (zero : A) (X : ndarray A) (g : G)
    : ndarray A * G :=
  let '(N, C, H, W) := shape X in
  let '(mask, g) := randint_size 2 N g in
  let out := zeros_like zero X in
  let out :=
    NdArray (shape out)
      (setitem_mask (mask_eq mask 1) (data out)
         (flip_image <$> getitem_mask (mask_eq mask 1) (data X))) in
  let out :=
    NdArray (shape out)
      (setitem_mask (mask_eq mask 0) (data out)
         (getitem_mask (mask_eq mask 0) (data X))) in
  (out, g).

(** The least value of numpy's index type [npy_intp] (64 bits). *)
Definition intp_min : Z := - 2 ^ 63.

(** [np.zeros] refuses a negative dimension. Its message names the first
    failure of the conversion of the shape: a dimension that does not fit
    [npy_intp], or else a negative one. The sizes of an array fit
    [npy_intp] and the crop shape lies below them once the assertion has
    passed, so only the lower end can be exceeded. *)
Definition zeros_error (HH WW : Z) : string :=
  if (HH <? intp_min) || (WW <? intp_min) then
    "Maximum allowed dimension exceeded"
  else "negative dimensions are not allowed".

Definition np_zeros {A : Type} (zero : A) (N C : nat) (HH WW : Z)
    : result (ndarray A) :=
  if (HH <? 0) || (WW <? 0) then
    Raise (ValueError (zeros_error HH WW))
  else Ok (zeros zero (N, C, Z.to_nat HH, Z.to_nat WW)).

Definition random_crops {A : Type} (zero : A) (X : ndarray A)
    (crop_shape : Z * Z) (g : G) : result (ndarray A) * G :=
  let '(N, C, H, W) := shape X in
  let '(HH, WW) := crop_shape in
  if negb ((HH <? Z.of_nat H) && (WW <? Z.of_nat W)) then
    (Raise AssertionError, g)
  else
    match np_zeros zero N C HH WW with
    | Raise e => (Raise e, g)
    | Ok out =>
        let '(x, g) := randint (Z.of_nat H - HH) g in
        let '(y, g) := randint (Z.of_nat W - WW) g in
        let out := getitem_hw X (from_to x (x + HH)) (from_to y (y + WW)) in
        (Ok out, g)
    end.

(** [X * scalar] *)
Definition scale_array (X : ndarray float) (scalar : float) : ndarray float :=
  NdArray (shape X)
    (fmap (M := list) (fmap (M := list) (fmap (M := list)
       (fmap (M := list) (λ v, (v * scalar)%float)))) (data X)).

Definition random_contrast (X : ndarray float) (scale : float * float) (g : G)
    : ndarray float * G :=
  let '(low, high) := scale in
  let N := (shape X).1.1.1 in
  let out := zeros_like 0%float X in
  let '(scalar, g) := uniform low high g in
  let out := scale_array X scalar in
  (out, g).

(** [X + l[:, :, None, None]]: [l[n, c]] is added to every sample of
    channel [c] of image [n]. *)
Definition add_channel (ch : list (list float)) (t : float)
    : list (list float) :=
  fmap (M := list) (fmap (M := list) (λ v, (v + t)%float)) ch.

Definition add_per_channel (X : ndarray float) (l : list (list float))
    : ndarray float :=
  NdArray (shape X) (zip_with (zip_with add_channel) (data X) l).

Definition random_tint (X : ndarray float) (scale : float * float) (g : G)
    : ndarray float * G :=
  let '(low, high) := scale in
  let '(N, C) := (shape X).1.1 in
  let out := zeros_like 0%float X in
  let '(u, g) := random_sample_size2 N C g in
  let l :=
    fmap (M := list) (fmap (M := list)
      (λ v, ((scale.2 - scale.1) * v + scale.1)%float)) u in
  let out := add_per_channel X l in
  (out, g).
End Transforms.

(** [X + t] for a scalar [t] *)
Definition add_scalar (X : ndarray float) (t : float) : ndarray float :=
  NdArray (shape X)
    (fmap (M := list) (fmap (M := list) (λ ch, add_channel ch t)) (data X)).

(** ** Decision procedures *)

Global Instance ndarray_eq_dec {A : Type} `{EqDecision A} :
  EqDecision (ndarray A).
Proof. solve_decision. Defined.

Global Instance well_shaped_dec {A : Type} (X : ndarray A) :
  Decision (well_shaped X).
Proof.
  unfold well_shaped, image_shaped, channel_shaped, rows_shaped.
  destruct (shape X) as [[[N C] H] W]. apply _.
Defined.

(** ** Storage: buffers, views, and the calls as they act on memory

    To speak of a call leaving its argument untouched, arrays are placed
    in a store. A buffer holds the samples; an array object names a buffer
    and the basic slices taken of it, so that a view reads the buffer it
    was sliced from. Basic slicing ([X[:, :, a:b, c:d]]) yields a view;
    [np.zeros], [np.zeros_like], masked selection and arithmetic yield a
    new buffer; a masked assignment writes into the buffer of its
    target. *)

Definition loc := positive.

Record aref := ARef { base : loc; window : list (slice * slice) }.

Record state (A G : Type) := State {
  heap : gmap loc (ndarray A);
  rng : G
}.
Arguments State {A G} _ _.
Arguments heap {A G} _.
Arguments rng {A G} _.

(** A computation either is stuck on a reference to no buffer ([None]), or
    ends with a value or an exception and a new state. *)
Definition py (A G T : Type) : Type :=
  state A G → option (result T * state A G).

Global Instance py_ret {A G : Type} : MRet (py A G) :=
  λ T v σ, Some (Ok v, σ).

Global Instance py_bind {A G : Type} : MBind (py A G) :=
  λ T U k m σ,
    match m σ with
    | Some (Ok v, σ') => k v σ'
    | Some (Raise e, σ') => Some (Raise e, σ')
    | None => None
    end.

Section Store.
Context {A G : Type} {RS : RandomState G}.

(** The array an object denotes in a store. *)
Definition deref (h : gmap loc (ndarray A)) (r : aref) : option (ndarray A) :=
  b ← h !! base r;
  Some (foldl (λ X (s : slice * slice), getitem_hw X s.1 s.2) b (window r)).

(** [r[:, :, sh, sw]] as an object: a view of the same buffer. *)
Definition view (r : aref) (sh sw : slice) : aref :=
  ARef (base r) (window r ++ [(sh, sw)]).

Definition raise {T : Type} (e : exn) : py A G T :=
  λ σ, Some (Raise e, σ).

Definition load (r : aref) : py A G (ndarray A) :=
  λ σ, v ← deref (heap σ) r; Some (Ok v, σ).

(** A new buffer, at a location no buffer occupies. *)
Definition new (v : ndarray A) : py A G loc :=
  λ σ, let l := fresh (dom (heap σ)) in
       Some (Ok l, State (<[l := v]> (heap σ)) (rng σ)).

(** In-place update of a buffer. *)
Definition update (l : loc) (f : ndarray A → ndarray A) : py A G unit :=
  λ σ, v ← heap σ !! l;
       Some (Ok (), State (<[l := f v]> (heap σ)) (rng σ)).

Definition draw {T : Type} (d : G → T * G) : py A G T :=
  λ σ, let '(v, g) := d (rng σ) in Some (Ok v, State (heap σ) g).

Definition random_flips_st (zero : A) (X : aref) : py A G aref :=
  x ← load X;
  let '(N, C, H, W) := shape x in
  mask ← draw (randint_size 2 N);
  out ← new (zeros_like zero x);
  x1 ← load X;
  let flipped := flip_image <$> getitem_mask (mask_eq mask 1) (data x1) in
  _ ← update out (λ o,
        NdArray (shape o) (setitem_mask (mask_eq mask 1) (data o) flipped));
  x0 ← load X;
  let kept := getitem_mask (mask_eq mask 0) (data x0) in
  _ ← update out (λ o,
        NdArray (shape o) (setitem_mask (mask_eq mask 0) (data o) kept));
  mret (ARef out []).

Definition random_crops_st (zero : A) (X : aref) (crop_shape : Z * Z)
    : py A G aref :=
  x ← load X;
  let '(N, C, H, W) := shape x in
  let '(HH, WW) := crop_shape in
  if negb ((HH <? Z.of_nat H) && (WW <? Z.of_nat W)) then
    raise AssertionError
  else
    match np_zeros zero N C HH WW with
    | Raise e => raise e
    | Ok z =>
        out ← new z;
        x ← draw (randint (Z.of_nat H - HH));
        y ← draw (randint (Z.of_nat W - WW));
        mret (view X (from_to x (x + HH)) (from_to y (y + WW)))
    end.

Definition fixed_crops_st (X : aref) (crop_shape : Z * Z)
    (crop_type : string) : py A G aref :=
  x ← load X;
  let '(N, C, H, W) := shape x in
  let '(HH, WW) := crop_shape in
  let x0 := (Z.of_nat W - WW) / 2 in
  let y0 := (Z.of_nat H - HH) / 2 in
  let x1 := x0 + WW in
  let y1 := y0 + HH in
  if String.eqb crop_type "center" then
    mret (view X (from_to y0 y1) (from_to x0 x1))
  else if String.eqb crop_type "ul" then
    mret (view X (up_to HH) (up_to WW))
  else if String.eqb crop_type "ur" then
    mret (view X (up_to HH) (from (- WW)))
  else if String.eqb crop_type "bl" then
    mret (view X (from (- HH)) (up_to WW))
  else if String.eqb crop_type "br" then
    mret (view X (from (- HH)) (from (- WW)))
  else
    raise (ValueError ("Unrecognized crop type " +:+ crop_type)).
End Store.

Section StoreArithmetic.
Context {G : Type} {RS : RandomState G}.

Definition random_contrast_st (X : aref) (scale : float * float)
    : py float G aref :=
  let '(low, high) := scale in
  x ← load X;
  let N := (shape x).1.1.1 in
  out ← new (zeros_like 0%float x);
  scalar ← draw (uniform low high);
  x ← load X;
  out ← new (scale_array x scalar);
  mret (ARef out []).

Definition random_tint_st (X : aref) (scale : float * float)
    : py float G aref :=
  let '(low, high) := scale in
  x ← load X;
  let '(N, C) := (shape x).1.1 in
  out ← new (zeros_like 0%float x);
  u ← draw (random_sample_size2 N C);
  let l :=
    fmap (M := list) (fmap (M := list)
      (λ v, ((scale.2 - scale.1) * v + scale.1)%float)) u in
  x ← load X;
  out ← new (add_per_channel x l);
  mret (ARef out []).
End StoreArithmetic.

(** The outcome of a call in a store against the outcome computed on
    values: same exception, or an object that denotes the computed array. *)
Definition denotes {A : Type} (h : gmap loc (ndarray A))
    (res : result aref) (v : result (ndarray A)) : Prop :=
  match res, v with
  | Ok r, Ok y => deref h r = Some y
  | Raise e, Raise e' => e = e'
  | _, _ => False
  end.

(** A call on the object [X] ends, leaves every buffer of the store as it
    was (so [X] denotes the same array afterwards), and its outcome is the
    one computed on values. *)
Definition returns_unchanged {A G : Type} (m : py A G aref)
    (σ : state A G) (X : aref) (v : result (ndarray A) * G) : Prop :=
  ∃ (res : result aref) (σ' : state A G),
    m σ = Some (res, σ') ∧
    heap σ ⊆ heap σ' ∧
    deref (heap σ') X = deref (heap σ) X ∧
    rng σ' = v.2 ∧
    denotes (heap σ') res v.1.

(** ** A concrete generator

    A linear congruential generator meets the interface; it serves to run
    the transforms on concrete batches. *)

Definition lcg_modulus : Z := 2147483648.

Definition lcg_next (s : Z) : Z := (1103515245 * s + 12345) `mod` lcg_modulus.

Definition lcg_randint (high : Z) (s : Z) : Z * Z :=
  (s `mod` high, lcg_next s).

(** Its draws of [0, 1) are the multiples of 1/8 that the three leading
    bits of the state select. *)
Definition lcg_table : list float :=
  [0%float; 0.125%float; 0.25%float; 0.375%float;
   0.5%float; 0.625%float; 0.75%float; 0.875%float].

Definition lcg_random_sample (s : Z) : float * Z :=
  (default 0%float
     (lcg_table !! Z.to_nat ((s `mod` lcg_modulus) / 268435456)),
   lcg_next s).

Global Instance lcg : RandomState Z.
Proof.
  refine {| randint := lcg_randint; random_sample := lcg_random_sample |}.
  - intros high s Hh. simpl. by apply Z.mod_pos_bound.
  - intros s. unfold lcg_random_sample. simpl.
    assert (Forall (λ u, (0 <=? u)%float = true ∧ (u <? 1)%float = true)
              lcg_table) as Htable by (repeat constructor).
    destruct (lcg_table !! _) as [u|] eqn:Hu; simpl.
    + by apply (Forall_lookup_1 _ _ _ _ Htable Hu).
    + by split.
Defined.

(** ** A generator that replays given draws

    It hands out the elements of a list as the draws of [random_sample],
    for running a call on chosen draws; an element outside [0, 1) counts
    as 0, as does the end of the list. Its integers are all 0. *)

Definition replay_randint (high : Z) (s : list float) : Z * list float :=
  (0, s).

Definition replay_random_sample (s : list float) : float * list float :=
  match s with
  | u :: s' =>
      (if (0 <=? u)%float && (u <? 1)%float then u else 0%float, s')
  | [] => (0%float, [])
  end.

Global Instance replay : RandomState (list float).
Proof.
  refine {| randint := replay_randint;
            random_sample := replay_random_sample |}.
  - intros high s Hh. simpl. lia.
  - intros [|u s]; simpl; [by split|].
    destruct (0 <=? u)%float eqn:H0, (u <? 1)%float eqn:H1; by split.
Defined.

(** ** Example batches and stores *)

Definition batch_3x3 : ndarray Z :=
  NdArray (1, 1, 3, 3)%nat [[[[1; 2; 3]; [4; 5; 6]; [7; 8; 9]]]].

Definition batch_2x4x5 : ndarray Z :=
  NdArray (2, 1, 4, 5)%nat
    [[[[ 0;  1;  2;  3;  4]; [ 5;  6;  7;  8;  9];
       [10; 11; 12; 13; 14]; [15; 16; 17; 18; 19]]];
     [[[20; 21; 22; 23; 24]; [25; 26; 27; 28; 29];
       [30; 31; 32; 33; 34]; [35; 36; 37; 38; 39]]]].

Definition batch_f : ndarray float :=
  NdArray (1, 2, 1, 2)%nat
    [[[[1%float; 2%float]]; [[3%float; 0.5%float]]]].

(** A store with one buffer, and the object reading its lower rows. *)
Definition store_3x3 : state Z Z :=
  State {[ 1%positive := batch_3x3 ]} 7.

Definition store_f : state float Z :=
  State {[ 1%positive := batch_f ]} 7.

Definition whole : aref := ARef 1%positive [].

Definition lower_rows : aref := ARef 1%positive [(from 1, from 0)].

(** ** Binary64 values *)

(** A finite number other than the negative zero. *)
Definition ordinary (s : float) : Prop :=
  match Prim2SF s with
  | S754_finite _ _ _ | S754_zero false => True
  | _ => False
  end.

(** The number that follows 1, [1 + 2^-52]. *)
Definition next_after_one : float := 0x1.0000000000001p+0%float.

(** A draw of [0, 1), about 0.8084340076893568, for which
    [1 + 2^-52 * u] rounds to [1 + 2^-52]. *)
Definition rounding_draw : float := 0x1.9deb0ffp-1%float.

Definition batch_half : ndarray float :=
  NdArray (1, 1, 1, 1)%nat [[[[0.5%float]]]].

(** ** Rows *)

(** [X[n, c, h]]: one row of samples. *)
Definition row {A : Type} (X : ndarray A) (n c h : nat) : option (list A) :=
  img ← data X !! n; ch ← img !! c; ch !! h.

(** * Properties *)

(** ** Slices: length and lookup *)

Lemma adjust_index_range len i :
  0 ≤ len → 0 ≤ adjust_index len i ≤ len.
Proof.
  intros Hlen. unfold adjust_index.
  destruct (Z.ltb_spec i 0); lia.
Qed.

Lemma slice_start_le s len : (slice_start s len ≤ len)%nat.
Proof.
  unfold slice_start. destruct (start s) as [a|]; [|lia].
  pose proof (adjust_index_range (Z.of_nat len) a). lia.
Qed.

Lemma slice_stop_le s len : (slice_stop s len ≤ len)%nat.
Proof.
  unfold slice_stop. destruct (stop s) as [b|]; [|lia].
  pose proof (adjust_index_range (Z.of_nat len) b). lia.
Qed.

Lemma slice_len_le s len : (slice_len s len ≤ len)%nat.
Proof. unfold slice_len. pose proof (slice_stop_le s len). lia. Qed.

Lemma length_getslice {B : Type} s (l : list B) :
  length (getslice s l) = slice_len s (length l).
Proof.
  unfold getslice. rewrite length_take, length_drop.
  pose proof (slice_stop_le s (length l)). unfold slice_len. lia.
Qed.

Lemma lookup_getslice {B : Type} s (l : list B) (i : nat) :
  (i < slice_len s (length l))%nat →
  getslice s l !! i = l !! (slice_start s (length l) + i)%nat.
Proof.
  intros Hi. unfold getslice.
  by rewrite lookup_take_lt, lookup_drop.
Qed.

Lemma lookup_getslice_ge {B : Type} s (l : list B) (i : nat) :
  (slice_len s (length l) ≤ i)%nat → getslice s l !! i = None.
Proof.
  intros Hi. apply lookup_ge_None. by rewrite length_getslice.
Qed.

(** The windows the crops take, when they lie inside the axis. *)
Lemma slice_from_to_inside (a b : Z) (len : nat) :
  0 ≤ a → a ≤ b → b ≤ Z.of_nat len →
  slice_start (from_to a b) len = Z.to_nat a ∧
  slice_len (from_to a b) len = Z.to_nat (b - a).
Proof.
  intros Ha Hab Hb. unfold slice_len, slice_start, slice_stop, adjust_index.
  simpl. destruct (Z.ltb_spec a 0), (Z.ltb_spec b 0); lia.
Qed.

Lemma slice_up_to_inside (b : Z) (len : nat) :
  0 ≤ b → b ≤ Z.of_nat len →
  slice_start (up_to b) len = 0%nat ∧ slice_len (up_to b) len = Z.to_nat b.
Proof.
  intros Hb Hlen. unfold slice_len, slice_start, slice_stop, adjust_index.
  simpl. destruct (Z.ltb_spec b 0); lia.
Qed.

Lemma slice_from_neg_inside (b : Z) (len : nat) :
  1 ≤ b → b ≤ Z.of_nat len →
  slice_start (from (- b)) len = Z.to_nat (Z.of_nat len - b) ∧
  slice_len (from (- b)) len = Z.to_nat b.
Proof.
  intros Hb Hlen. unfold slice_len, slice_start, slice_stop, adjust_index.
  simpl. destruct (Z.ltb_spec (- b) 0); lia.
Qed.

(** [l[-0:]] is the whole of [l]. *)
Lemma slice_from_neg_zero (len : nat) :
  slice_start (from (- 0)) len = 0%nat ∧ slice_len (from (- 0)) len = len.
Proof.
  unfold slice_len, slice_start, slice_stop, adjust_index. simpl. lia.
Qed.

(** ** Shapes and samples of a spatial window *)

Section ArrayFacts.
Context {A : Type}.
Implicit Types (X : ndarray A) (ch : list (list A))
  (img : list (list (list A))).

Lemma crop_channel_shaped sh sw H W ch :
  channel_shaped H W ch →
  channel_shaped (slice_len sh H) (slice_len sw W) (crop_channel sh sw ch).
Proof.
  intros [Hlen Hrows]. unfold crop_channel. split.
  - by rewrite length_fmap, length_getslice, Hlen.
  - unfold rows_shaped in *. apply Forall_fmap, Forall_forall.
    intros r Hr. simpl. rewrite length_getslice.
    assert (r ∈ ch) as Hin.
    { unfold getslice in Hr.
      by eapply subseteq_drop, subseteq_take. }
    rewrite Forall_forall in Hrows. by rewrite (Hrows r Hin).
Qed.

Lemma crop_image_shaped sh sw C H W img :
  image_shaped C H W img →
  image_shaped C (slice_len sh H) (slice_len sw W) (crop_image sh sw img).
Proof.
  intros [Hlen Hchs]. unfold crop_image. split.
  - by rewrite length_fmap.
  - apply Forall_fmap. eapply Forall_impl; [exact Hchs|].
    intros ch Hch. by apply crop_channel_shaped.
Qed.

Lemma getitem_hw_shape X sh sw N C H W :
  shape X = (N, C, H, W) →
  shape (getitem_hw X sh sw) = (N, C, slice_len sh H, slice_len sw W).
Proof. intros HX. unfold getitem_hw. by rewrite HX. Qed.

Lemma getitem_hw_data X sh sw :
  data (getitem_hw X sh sw) = crop_image sh sw <$> data X.
Proof. unfold getitem_hw. by destruct (shape X) as [[[??]?]?]. Qed.

Lemma getitem_hw_well_shaped X sh sw :
  well_shaped X → well_shaped (getitem_hw X sh sw).
Proof.
  unfold well_shaped. rewrite getitem_hw_data.
  destruct (shape X) as [[[N C] H] W] eqn:HX.
  rewrite (getitem_hw_shape X sh sw N C H W HX).
  intros [Hlen Himgs]. split.
  - by rewrite length_fmap.
  - apply Forall_fmap. eapply Forall_impl; [exact Himgs|].
    intros img Himg. by apply crop_image_shaped.
Qed.

(** Inside the image the four indices of a well-shaped array select a
    sample. *)
Lemma sample_crop_channel sh sw H W ch (h w : nat) :
  channel_shaped H W ch →
  (h < slice_len sh H)%nat → (w < slice_len sw W)%nat →
  (r ← crop_channel sh sw ch !! h; r !! w) =
  (r ← ch !! (slice_start sh H + h)%nat; r !! (slice_start sw W + w)%nat).
Proof.
  intros [Hlen Hrows] Hh Hw. unfold crop_channel.
  rewrite list_lookup_fmap, lookup_getslice by (by rewrite Hlen).
  rewrite Hlen.
  destruct (ch !! (slice_start sh H + h)%nat) as [r|] eqn:Hr; [|done].
  simpl. unfold rows_shaped in Hrows. rewrite Forall_lookup in Hrows.
  pose proof (Hrows _ _ Hr) as Hrlen. simpl in Hrlen.
  rewrite lookup_getslice by (by rewrite Hrlen). by rewrite Hrlen.
Qed.

Lemma sample_getitem_hw X sh sw N C H W (n c h w : nat) :
  well_shaped X → shape X = (N, C, H, W) →
  (h < slice_len sh H)%nat → (w < slice_len sw W)%nat →
  sample (getitem_hw X sh sw) n c h w =
  sample X n c (slice_start sh H + h)%nat (slice_start sw W + w)%nat.
Proof.
  intros HwX HX Hh Hw. unfold sample. rewrite getitem_hw_data.
  unfold well_shaped in HwX. rewrite HX in HwX. destruct HwX as [_ Himgs].
  rewrite list_lookup_fmap.
  destruct (data X !! n) as [img|] eqn:Himg; [|done]. simpl.
  rewrite Forall_lookup in Himgs.
  destruct (Himgs _ _ Himg) as [_ Hchs].
  unfold crop_image. rewrite list_lookup_fmap.
  destruct (img !! c) as [ch|] eqn:Hch; [|done]. simpl.
  rewrite Forall_lookup in Hchs.
  apply sample_crop_channel; [exact (Hchs _ _ Hch)|done|done].
Qed.
End ArrayFacts.

(** ** [fixed_crops] *)

Section FixedCrops.
Context {A : Type}.
Implicit Types (X Y : ndarray A).

Lemma fixed_crops_center_eq X HH WW :
  fixed_crops X (HH, WW) "center" =
  let '(N, C, H, W) := shape X in
  let x0 := (Z.of_nat W - WW) / 2 in
  let y0 := (Z.of_nat H - HH) / 2 in
  Ok (getitem_hw X (from_to y0 (y0 + HH)) (from_to x0 (x0 + WW))).
Proof. unfold fixed_crops. by destruct (shape X) as [[[??]?]?]. Qed.

Lemma fixed_crops_ul_eq X HH WW :
  fixed_crops X (HH, WW) "ul" = Ok (getitem_hw X (up_to HH) (up_to WW)).
Proof. unfold fixed_crops. by destruct (shape X) as [[[??]?]?]. Qed.

Lemma fixed_crops_ur_eq X HH WW :
  fixed_crops X (HH, WW) "ur" = Ok (getitem_hw X (up_to HH) (from (- WW))).
Proof. unfold fixed_crops. by destruct (shape X) as [[[??]?]?]. Qed.

Lemma fixed_crops_bl_eq X HH WW :
  fixed_crops X (HH, WW) "bl" = Ok (getitem_hw X (from (- HH)) (up_to WW)).
Proof. unfold fixed_crops. by destruct (shape X) as [[[??]?]?]. Qed.

Lemma fixed_crops_br_eq X HH WW :
  fixed_crops X (HH, WW) "br" =
  Ok (getitem_hw X (from (- HH)) (from (- WW))).
Proof. unfold fixed_crops. by destruct (shape X) as [[[??]?]?]. Qed.

Lemma fixed_crops_other_eq X HH WW tag :
  tag ≠ "center" → tag ≠ "ul" → tag ≠ "ur" → tag ≠ "bl" → tag ≠ "br" →
  fixed_crops X (HH, WW) tag =
  Raise (ValueError ("Unrecognized crop type " +:+ tag)).
Proof.
  intros H1 H2 H3 H4 H5. unfold fixed_crops.
  destruct (shape X) as [[[??]?]?].
  apply String.eqb_neq in H1, H2, H3, H4, H5.
  by rewrite H1, H2, H3, H4, H5.
Qed.
End FixedCrops.

Example fixed_crops_center_3x3 :
  fixed_crops batch_3x3 (2, 2) "center" =
  Ok (NdArray (1, 1, 2, 2)%nat [[[[1; 2]; [4; 5]]]]).
Proof. reflexivity. Qed.

Example fixed_crops_br_3x3 :
  fixed_crops batch_3x3 (2, 1) "br" =
  Ok (NdArray (1, 1, 2, 1)%nat [[[[6]; [9]]]]).
Proof. reflexivity. Qed.

Example fixed_crops_bogus_3x3 :
  fixed_crops batch_3x3 (2, 1) "bogus" =
  Raise (ValueError "Unrecognized crop type bogus").
Proof. reflexivity. Qed.

(** C5. For a batch of shape (N, C, H, W) and a crop shape (HH, WW) with
    HH ≤ H and WW ≤ W, [fixed_crops X (HH, WW) "center"] returns the window
    [X[:, :, y0:y0+HH, x0:x0+WW]] where [y0 = (H - HH) / 2] comes from the
    height axis and [x0 = (W - WW) / 2] from the width axis, both by integer
    division that truncates (so [2 * y0] is [H - HH] or [H - HH - 1]); the
    result has shape (N, C, HH, WW) and its sample at [n, c, h, w] is the
    sample of [X] at [n, c, y0 + h, x0 + w]. *)
Theorem fixed_crops_center_window {A : Type} (X : ndarray A)
    (N C H W : nat) (HH WW : Z) :
  well_shaped X → shape X = (N, C, H, W) →
  0 ≤ HH ≤ Z.of_nat H → 0 ≤ WW ≤ Z.of_nat W →
  ∃ (y0 x0 : nat) (Y : ndarray A),
    Z.of_nat y0 = (Z.of_nat H - HH) ÷ 2 ∧
    Z.of_nat x0 = (Z.of_nat W - WW) ÷ 2 ∧
    fixed_crops X (HH, WW) "center" = Ok Y ∧
    Y = getitem_hw X (from_to (Z.of_nat y0) (Z.of_nat y0 + HH))
                     (from_to (Z.of_nat x0) (Z.of_nat x0 + WW)) ∧
    shape Y = (N, C, Z.to_nat HH, Z.to_nat WW) ∧
    well_shaped Y ∧
    ∀ n c h w : nat,
      (h < Z.to_nat HH)%nat → (w < Z.to_nat WW)%nat →
      sample Y n c h w = sample X n c (y0 + h)%nat (x0 + w)%nat.
Proof.
  intros HwX HX HHH HWW.
  set (y := (Z.of_nat H - HH) / 2). set (x := (Z.of_nat W - WW) / 2).
  assert (0 ≤ y ∧ 2 * y ≤ Z.of_nat H - HH) as [Hy0 Hy1].
  { subst y. split; [apply Z.div_pos; lia|].
    apply Z.mul_div_le. lia. }
  assert (0 ≤ x ∧ 2 * x ≤ Z.of_nat W - WW) as [Hx0 Hx1].
  { subst x. split; [apply Z.div_pos; lia|].
    apply Z.mul_div_le. lia. }
  destruct (slice_from_to_inside y (y + HH) H) as [Hsy Hly]; [lia..|].
  destruct (slice_from_to_inside x (x + WW) W) as [Hsx Hlx]; [lia..|].
  replace (y + HH - y) with HH in Hly by lia.
  replace (x + WW - x) with WW in Hlx by lia.
  exists (Z.to_nat y), (Z.to_nat x),
    (getitem_hw X (from_to y (y + HH)) (from_to x (x + WW))).
  rewrite !Z2Nat.id by done.
  split_and!.
  - subst y. rewrite Z.quot_div_nonneg; lia.
  - subst x. rewrite Z.quot_div_nonneg; lia.
  - rewrite fixed_crops_center_eq, HX. done.
  - done.
  - by rewrite (getitem_hw_shape X _ _ N C H W HX), Hly, Hlx.
  - by apply getitem_hw_well_shaped.
  - intros n c h w Hh Hw.
    rewrite (sample_getitem_hw X _ _ N C H W) by (done || lia).
    by rewrite Hsy, Hsx.
Qed.

Lemma fixed_crops_center_window_witness :
  ∃ (y0 x0 : nat) (Y : ndarray Z),
    Z.of_nat y0 = (Z.of_nat 4 - 3) ÷ 2 ∧
    Z.of_nat x0 = (Z.of_nat 5 - 2) ÷ 2 ∧
    fixed_crops batch_2x4x5 (3, 2) "center" = Ok Y ∧
    Y = getitem_hw batch_2x4x5
          (from_to (Z.of_nat y0) (Z.of_nat y0 + 3))
          (from_to (Z.of_nat x0) (Z.of_nat x0 + 2)) ∧
    shape Y = (2, 1, Z.to_nat 3, Z.to_nat 2)%nat ∧
    well_shaped Y ∧
    ∀ n c h w : nat,
      (h < Z.to_nat 3)%nat → (w < Z.to_nat 2)%nat →
      sample Y n c h w = sample batch_2x4x5 n c (y0 + h)%nat (x0 + w)%nat.
Proof.
  apply (fixed_crops_center_window batch_2x4x5 2 1 4 5 3 2).
  - compute_done.
  - reflexivity.
  - lia.
  - lia.
Defined.

(** C6. For a batch of shape (N, C, H, W) and a crop shape (HH, WW) with
    HH ≤ H and WW ≤ W, [fixed_crops X (HH, WW) "ul"] is exactly the slice
    [X[:, :, :HH, :WW]] and [fixed_crops X (HH, WW) "br"] is exactly the
    slice [X[:, :, -HH:, -WW:]]; both are functions of [X] alone and hold
    samples of [X]: the first HH rows and WW columns, respectively the last
    HH rows and WW columns. *)
Theorem fixed_crops_ul_br_slices {A : Type} (X : ndarray A)
    (N C H W : nat) (HH WW : Z) :
  well_shaped X → shape X = (N, C, H, W) →
  1 ≤ HH ≤ Z.of_nat H → 1 ≤ WW ≤ Z.of_nat W →
  ∃ Yul Ybr : ndarray A,
    fixed_crops X (HH, WW) "ul" = Ok Yul ∧
    Yul = getitem_hw X (up_to HH) (up_to WW) ∧
    fixed_crops X (HH, WW) "br" = Ok Ybr ∧
    Ybr = getitem_hw X (from (- HH)) (from (- WW)) ∧
    shape Yul = (N, C, Z.to_nat HH, Z.to_nat WW) ∧
    shape Ybr = (N, C, Z.to_nat HH, Z.to_nat WW) ∧
    ∀ n c h w : nat,
      (h < Z.to_nat HH)%nat → (w < Z.to_nat WW)%nat →
      sample Yul n c h w = sample X n c h w ∧
      sample Ybr n c h w =
        sample X n c (H - Z.to_nat HH + h)%nat (W - Z.to_nat WW + w)%nat.
Proof.
  intros HwX HX HHH HWW.
  destruct (slice_up_to_inside HH H) as [Hs1 Hl1]; [lia..|].
  destruct (slice_up_to_inside WW W) as [Hs2 Hl2]; [lia..|].
  destruct (slice_from_neg_inside HH H) as [Hs3 Hl3]; [lia..|].
  destruct (slice_from_neg_inside WW W) as [Hs4 Hl4]; [lia..|].
  exists (getitem_hw X (up_to HH) (up_to WW)),
    (getitem_hw X (from (- HH)) (from (- WW))).
  split_and!.
  - apply fixed_crops_ul_eq.
  - done.
  - apply fixed_crops_br_eq.
  - done.
  - by rewrite (getitem_hw_shape X _ _ N C H W HX), Hl1, Hl2.
  - by rewrite (getitem_hw_shape X _ _ N C H W HX), Hl3, Hl4.
  - intros n c h w Hh Hw. split.
    + rewrite (sample_getitem_hw X _ _ N C H W) by (done || lia).
      by rewrite Hs1, Hs2.
    + rewrite (sample_getitem_hw X _ _ N C H W) by (done || lia).
      rewrite Hs3, Hs4. do 2 f_equal; lia.
Qed.

Lemma fixed_crops_ul_br_slices_witness :
  ∃ Yul Ybr : ndarray Z,
    fixed_crops batch_2x4x5 (3, 2) "ul" = Ok Yul ∧
    Yul = getitem_hw batch_2x4x5 (up_to 3) (up_to 2) ∧
    fixed_crops batch_2x4x5 (3, 2) "br" = Ok Ybr ∧
    Ybr = getitem_hw batch_2x4x5 (from (- 3)) (from (- 2)) ∧
    shape Yul = (2, 1, Z.to_nat 3, Z.to_nat 2)%nat ∧
    shape Ybr = (2, 1, Z.to_nat 3, Z.to_nat 2)%nat ∧
    ∀ n c h w : nat,
      (h < Z.to_nat 3)%nat → (w < Z.to_nat 2)%nat →
      sample Yul n c h w = sample batch_2x4x5 n c h w ∧
      sample Ybr n c h w =
        sample batch_2x4x5 n c (4 - Z.to_nat 3 + h)%nat
          (5 - Z.to_nat 2 + w)%nat.
Proof.
  apply (fixed_crops_ul_br_slices batch_2x4x5 2 1 4 5 3 2).
  - compute_done.
  - reflexivity.
  - lia.
  - lia.
Defined.

(** C7. For every batch and every crop shape, a tag other than "center",
    "ul", "ur", "bl" and "br" makes [fixed_crops] raise a [ValueError]
    whose message is "Unrecognized crop type " followed by the tag; the
    call has no other outcome. *)
Theorem fixed_crops_unrecognized {A : Type} (X : ndarray A)
    (crop_shape : Z * Z) (tag : string) :
  tag ≠ "center" → tag ≠ "ul" → tag ≠ "ur" → tag ≠ "bl" → tag ≠ "br" →
  fixed_crops X crop_shape tag =
    Raise (ValueError ("Unrecognized crop type " +:+ tag)) ∧
  ∀ Y, fixed_crops X crop_shape tag ≠ Ok Y.
Proof.
  intros H1 H2 H3 H4 H5. destruct crop_shape as [HH WW].
  rewrite fixed_crops_other_eq by done. split; [done|]. by intros Y.
Qed.

Lemma fixed_crops_unrecognized_witness :
  fixed_crops batch_3x3 (2, 2) "bogus" =
    Raise (ValueError ("Unrecognized crop type " +:+ "bogus")) ∧
  ∀ Y, fixed_crops batch_3x3 (2, 2) "bogus" ≠ Ok Y.
Proof.
  apply (fixed_crops_unrecognized batch_3x3 (2, 2) "bogus");
    discriminate.
Defined.

(** A tag that is not in the list at hand. *)
Ltac absurd_tag :=
  let Hin := fresh "Hin" in
  intros Hin; exfalso;
  repeat (apply elem_of_cons in Hin as [Hin|Hin]; [discriminate Hin|]);
  by apply elem_of_nil in Hin.

(** Length of a corner window that fits in the axis. *)
Ltac window_len :=
  first [ apply slice_up_to_inside; lia | apply slice_from_neg_inside; lia ].

(** The claim of C10 fails as worded: with HH = 0 the "ur" branch slices the
    height axis by [:0], so the result has no rows (not the full height
    axis), and its shape is the requested (N, C, HH, WW) although
    1 ≤ HH does not hold. *)
Lemma fixed_crops_ur_zero_height_counterexample :
  fixed_crops batch_3x3 (0, 1) "ur" = Ok (NdArray (1, 1, 0, 1)%nat [[[]]]) ∧
  ¬ (∀ Y, fixed_crops batch_3x3 (0, 1) "ur" = Ok Y →
          ∃ n c w : nat, shape Y = (n, c, 3, w)%nat) ∧
  ¬ (∀ Y, fixed_crops batch_3x3 (0, 1) "ur" = Ok Y →
          shape Y = (1, 1, Z.to_nat 0, Z.to_nat 1)%nat → 1 ≤ 0).
Proof.
  split_and!.
  - reflexivity.
  - intros Hc. destruct (Hc _ eq_refl) as (n & c & w & Hs). discriminate.
  - intros Hc. specialize (Hc _ eq_refl eq_refl). lia.
Qed.

(** C10 (amended). [fixed_crops] does not validate the crop shape: for
    every crop shape and every recognized tag it returns an array, whose
    spatial extent never exceeds that of the input. For the corner tags the
    shape is the requested (N, C, HH, WW) whenever 1 ≤ HH ≤ H and
    1 ≤ WW ≤ W. With HH = 0 the branches slicing from [-HH] ("bl", "br")
    keep the full height axis, and with WW = 0 the branches slicing from
    [-WW] ("ur", "br") keep the full width axis. With HH > H or WW > W the
    result is smaller than requested, and no error is raised. *)
Theorem fixed_crops_unvalidated {A : Type} (X : ndarray A)
    (N C H W : nat) (HH WW : Z) (tag : string) :
  shape X = (N, C, H, W) →
  tag ∈ ["center"; "ul"; "ur"; "bl"; "br"] →
  ∃ (Y : ndarray A) (hY wY : nat),
    fixed_crops X (HH, WW) tag = Ok Y ∧
    shape Y = (N, C, hY, wY) ∧
    (well_shaped X → well_shaped Y) ∧
    (hY ≤ H)%nat ∧ (wY ≤ W)%nat ∧
    (tag ∈ ["ul"; "ur"; "bl"; "br"] →
     1 ≤ HH ≤ Z.of_nat H → 1 ≤ WW ≤ Z.of_nat W →
     hY = Z.to_nat HH ∧ wY = Z.to_nat WW) ∧
    (tag ∈ ["bl"; "br"] → HH = 0 → hY = H) ∧
    (tag ∈ ["ur"; "br"] → WW = 0 → wY = W) ∧
    (Z.of_nat H < HH → Z.of_nat hY < HH) ∧
    (Z.of_nat W < WW → Z.of_nat wY < WW).
Proof.
  intros HX Htag.
  pose proof (slice_len_le) as Hle.
  repeat (apply elem_of_cons in Htag as [->|Htag]);
    [..|by apply elem_of_nil in Htag].
  all: eexists _, _, _; split_and!;
    [ first [ rewrite fixed_crops_center_eq, HX; reflexivity
            | apply fixed_crops_ul_eq | apply fixed_crops_ur_eq
            | apply fixed_crops_bl_eq | apply fixed_crops_br_eq ]
    | by apply getitem_hw_shape
    | apply getitem_hw_well_shaped
    | apply Hle | apply Hle
    | first [ absurd_tag | intros _ ? ?; split; window_len ]
    | first [ absurd_tag | intros _ ->; apply slice_from_neg_zero ]
    | first [ absurd_tag | intros _ ->; apply slice_from_neg_zero ]
    | intros ?; match goal with |- Z.of_nat (slice_len ?s ?n) < _ =>
        specialize (Hle s n); lia end
    | intros ?; match goal with |- Z.of_nat (slice_len ?s ?n) < _ =>
        specialize (Hle s n); lia end ].
Qed.

Lemma fixed_crops_unvalidated_witness :
  ∃ (Y : ndarray Z) (hY wY : nat),
    fixed_crops batch_3x3 (0, 5) "br" = Ok Y ∧
    shape Y = (1, 1, hY, wY)%nat ∧
    (well_shaped batch_3x3 → well_shaped Y) ∧
    (hY ≤ 3)%nat ∧ (wY ≤ 3)%nat ∧
    ("br" ∈ ["ul"; "ur"; "bl"; "br"] →
     1 ≤ 0 ≤ Z.of_nat 3 → 1 ≤ 5 ≤ Z.of_nat 3 →
     hY = Z.to_nat 0 ∧ wY = Z.to_nat 5) ∧
    ("br" ∈ ["bl"; "br"] → 0 = 0 → hY = 3%nat) ∧
    ("br" ∈ ["ur"; "br"] → 5 = 0 → wY = 3%nat) ∧
    (Z.of_nat 3 < 0 → Z.of_nat hY < 0) ∧
    (Z.of_nat 3 < 5 → Z.of_nat wY < 5).
Proof.
  apply (fixed_crops_unvalidated batch_3x3 1 1 3 3 0 5 "br").
  - reflexivity.
  - compute_done.
Defined.

(** ** [random_crops] *)

Section RandomCrops.
Context {G : Type} {RS : RandomState G} {A : Type} (zero : A).
Implicit Types (X Y : ndarray A) (g : G).

Lemma random_crops_assert X N C H W HH WW g :
  shape X = (N, C, H, W) →
  Z.of_nat H ≤ HH ∨ Z.of_nat W ≤ WW →
  random_crops zero X (HH, WW) g = (Raise AssertionError, g).
Proof.
  intros HX Hbad. unfold random_crops. rewrite HX.
  destruct (Z.ltb_spec HH (Z.of_nat H)), (Z.ltb_spec WW (Z.of_nat W));
    simpl; try done; lia.
Qed.

Lemma random_crops_negative X N C H W HH WW g :
  shape X = (N, C, H, W) →
  HH < Z.of_nat H → WW < Z.of_nat W → HH < 0 ∨ WW < 0 →
  random_crops zero X (HH, WW) g =
  (Raise (ValueError (zeros_error HH WW)), g).
Proof.
  intros HX HH1 HW1 Hneg. unfold random_crops, np_zeros. rewrite HX.
  destruct (Z.ltb_spec HH (Z.of_nat H)), (Z.ltb_spec WW (Z.of_nat W));
    try lia. simpl.
  destruct (Z.ltb_spec HH 0), (Z.ltb_spec WW 0); simpl; try done; lia.
Qed.

Lemma random_crops_window X N C H W HH WW g :
  shape X = (N, C, H, W) →
  0 ≤ HH < Z.of_nat H → 0 ≤ WW < Z.of_nat W →
  random_crops zero X (HH, WW) g =
  let x := randint (Z.of_nat H - HH) g in
  let y := randint (Z.of_nat W - WW) x.2 in
  (Ok (getitem_hw X (from_to x.1 (x.1 + HH)) (from_to y.1 (y.1 + WW))),
   y.2).
Proof.
  intros HX HH1 HW1. unfold random_crops, np_zeros. rewrite HX.
  destruct (Z.ltb_spec HH (Z.of_nat H)), (Z.ltb_spec WW (Z.of_nat W));
    try lia. simpl.
  destruct (Z.ltb_spec HH 0), (Z.ltb_spec WW 0); try lia. simpl.
  destruct (randint (Z.of_nat H - HH) g) as [x g1]. simpl.
  by destruct (randint (Z.of_nat W - WW) g1) as [y g2].
Qed.
End RandomCrops.

Example random_crops_2x4x5 :
  random_crops 0 batch_2x4x5 (2, 3) (7 : Z) =
  (Ok (NdArray (2, 1, 2, 3)%nat
         [[[[ 5;  6;  7]; [10; 11; 12]]]; [[[25; 26; 27]; [30; 31; 32]]]]),
   lcg_next (lcg_next 7)).
Proof. reflexivity. Qed.

(** C2. For a batch of shape (N, C, H, W) and a crop shape (HH, WW) with
    HH < H and WW < W, [random_crops] returns a batch of shape
    (N, C, HH, WW) that is [X] restricted to one window
    [x:x+HH, y:y+WW], for a single pair of integer offsets with
    0 ≤ x < H - HH and 0 ≤ y < W - WW that serves every image and every
    channel of the batch. *)
Theorem random_crops_single_window {G : Type} {RS : RandomState G}
    {A : Type} (zero : A) (X : ndarray A) (N C H W : nat) (HH WW : Z)
    (g : G) :
  well_shaped X → shape X = (N, C, H, W) →
  0 ≤ HH < Z.of_nat H → 0 ≤ WW < Z.of_nat W →
  ∃ (x y : nat) (Y : ndarray A) (g' : G),
    random_crops zero X (HH, WW) g = (Ok Y, g') ∧
    Z.of_nat x < Z.of_nat H - HH ∧ Z.of_nat y < Z.of_nat W - WW ∧
    Y = getitem_hw X (from_to (Z.of_nat x) (Z.of_nat x + HH))
                     (from_to (Z.of_nat y) (Z.of_nat y + WW)) ∧
    shape Y = (N, C, Z.to_nat HH, Z.to_nat WW) ∧
    well_shaped Y ∧
    ∀ n c h w : nat,
      (h < Z.to_nat HH)%nat → (w < Z.to_nat WW)%nat →
      sample Y n c h w = sample X n c (x + h)%nat (y + w)%nat.
Proof.
  intros HwX HX HHH HWW.
  rewrite (random_crops_window zero X N C H W) by done. simpl.
  pose proof (randint_range (Z.of_nat H - HH) g) as Hx.
  destruct (randint (Z.of_nat H - HH) g) as [x g1]. simpl in *.
  pose proof (randint_range (Z.of_nat W - WW) g1) as Hy.
  destruct (randint (Z.of_nat W - WW) g1) as [y g2]. simpl in *.
  specialize (Hx ltac:(lia)). specialize (Hy ltac:(lia)).
  destruct (slice_from_to_inside x (x + HH) H) as [Hsx Hlx]; [lia..|].
  destruct (slice_from_to_inside y (y + WW) W) as [Hsy Hly]; [lia..|].
  replace (x + HH - x) with HH in Hlx by lia.
  replace (y + WW - y) with WW in Hly by lia.
  exists (Z.to_nat x), (Z.to_nat y),
    (getitem_hw X (from_to x (x + HH)) (from_to y (y + WW))), g2.
  rewrite !Z2Nat.id by lia.
  split_and!; try done; try lia.
  - by rewrite (getitem_hw_shape X _ _ N C H W HX), Hlx, Hly.
  - by apply getitem_hw_well_shaped.
  - intros n c h w Hh Hw.
    rewrite (sample_getitem_hw X _ _ N C H W) by (done || lia).
    by rewrite Hsx, Hsy.
Qed.

Lemma random_crops_single_window_witness :
  ∃ (x y : nat) (Y : ndarray Z) (g' : Z),
    random_crops 0 batch_2x4x5 (2, 3) (7 : Z) = (Ok Y, g') ∧
    Z.of_nat x < Z.of_nat 4 - 2 ∧ Z.of_nat y < Z.of_nat 5 - 3 ∧
    Y = getitem_hw batch_2x4x5
          (from_to (Z.of_nat x) (Z.of_nat x + 2))
          (from_to (Z.of_nat y) (Z.of_nat y + 3)) ∧
    shape Y = (2, 1, Z.to_nat 2, Z.to_nat 3)%nat ∧
    well_shaped Y ∧
    ∀ n c h w : nat,
      (h < Z.to_nat 2)%nat → (w < Z.to_nat 3)%nat →
      sample Y n c h w = sample batch_2x4x5 n c (x + h)%nat (y + w)%nat.
Proof.
  apply (random_crops_single_window 0 batch_2x4x5 2 1 4 5 2 3 (7 : Z)).
  - compute_done.
  - reflexivity.
  - lia.
  - lia.
Defined.

(** C8. [random_crops] raises the assertion error exactly when HH ≥ H or
    WW ≥ W; it does so before anything is drawn or extracted, so that the
    call ends with the error and the generator untouched. For a crop shape
    with HH < H and WW < W (and no negative entry) no error is raised. *)
Theorem random_crops_assertion {G : Type} {RS : RandomState G}
    {A : Type} (zero : A) (X : ndarray A) (N C H W : nat) (HH WW : Z)
    (g : G) :
  shape X = (N, C, H, W) →
  ((random_crops zero X (HH, WW) g).1 = Raise AssertionError ↔
   Z.of_nat H ≤ HH ∨ Z.of_nat W ≤ WW) ∧
  (Z.of_nat H ≤ HH ∨ Z.of_nat W ≤ WW →
   random_crops zero X (HH, WW) g = (Raise AssertionError, g)) ∧
  (0 ≤ HH < Z.of_nat H → 0 ≤ WW < Z.of_nat W →
   ∃ Y g', random_crops zero X (HH, WW) g = (Ok Y, g')).
Proof.
  intros HX. split_and!.
  - split.
    + intros Hr.
      destruct (decide (Z.of_nat H ≤ HH ∨ Z.of_nat W ≤ WW)) as [|Hok];
        [done|]. exfalso.
      destruct (decide (HH < 0 ∨ WW < 0)) as [Hneg|Hpos].
      * rewrite (random_crops_negative zero X N C H W) in Hr
          by (done || lia). discriminate.
      * rewrite (random_crops_window zero X N C H W) in Hr
          by (done || lia). discriminate.
    + intros Hbad. by rewrite (random_crops_assert zero X N C H W).
  - by apply (random_crops_assert zero X N C H W).
  - intros HHH HWW. rewrite (random_crops_window zero X N C H W) by done.
    by eexists _, _.
Qed.

Lemma random_crops_assertion_witness :
  ((random_crops 0 batch_2x4x5 (4, 3) (7 : Z)).1 = Raise AssertionError ↔
   Z.of_nat 4 ≤ 4 ∨ Z.of_nat 5 ≤ 3) ∧
  (Z.of_nat 4 ≤ 4 ∨ Z.of_nat 5 ≤ 3 →
   random_crops 0 batch_2x4x5 (4, 3) (7 : Z) = (Raise AssertionError, 7)) ∧
  (0 ≤ 4 < Z.of_nat 4 → 0 ≤ 3 < Z.of_nat 5 →
   ∃ Y g', random_crops 0 batch_2x4x5 (4, 3) (7 : Z) = (Ok Y, g')).
Proof.
  apply (random_crops_assertion 0 batch_2x4x5 2 1 4 5 4 3 (7 : Z)).
  reflexivity.
Defined.

(** ** [random_flips] *)

Section FlipFacts.
Context {A : Type}.
Implicit Types (X Y : ndarray A) (ch : list (list A))
  (img : list (list (list A))).

Lemma flip_channel_shaped H W ch :
  channel_shaped H W ch → channel_shaped H W (flip_channel ch).
Proof.
  intros [Hlen Hrows]. unfold flip_channel. split.
  - by rewrite length_fmap.
  - unfold rows_shaped in *. apply Forall_fmap.
    eapply Forall_impl; [exact Hrows|].
    intros r Hr. simpl. by rewrite length_reverse.
Qed.

Lemma flip_image_shaped C H W img :
  image_shaped C H W img → image_shaped C H W (flip_image img).
Proof.
  intros [Hlen Hchs]. unfold flip_image. split.
  - by rewrite length_fmap.
  - apply Forall_fmap. eapply Forall_impl; [exact Hchs|].
    intros ch Hch. by apply flip_channel_shaped.
Qed.

(** Sample [w] of a flipped image is sample [W - 1 - w] of the image, in
    every channel and every row. *)
Lemma flip_image_lookup C H W img (c h w : nat) :
  image_shaped C H W img → (w < W)%nat →
  (ch ← flip_image img !! c; r ← ch !! h; r !! w) =
  (ch ← img !! c; r ← ch !! h; r !! (W - 1 - w)%nat).
Proof.
  intros [_ Hchs] Hw. unfold flip_image. rewrite list_lookup_fmap.
  destruct (img !! c) as [ch|] eqn:Hch; [|done]. simpl.
  rewrite Forall_lookup in Hchs. destruct (Hchs _ _ Hch) as [_ Hrows].
  unfold flip_channel. rewrite list_lookup_fmap.
  destruct (ch !! h) as [r|] eqn:Hr; [|done]. simpl.
  unfold rows_shaped in Hrows. rewrite Forall_lookup in Hrows.
  pose proof (Hrows _ _ Hr) as Hrlen. simpl in Hrlen.
  rewrite reverse_lookup by lia. f_equal. lia.
Qed.

(** The two masked assignments of [random_flips], image by image. *)
Lemma flips_by_mask (mask : list Z) (out imgs : list (list (list (list A)))) :
  length mask = length imgs → length out = length imgs →
  Forall (λ b, b = 0 ∨ b = 1) mask →
  setitem_mask (mask_eq mask 0)
    (setitem_mask (mask_eq mask 1) out
       (flip_image <$> getitem_mask (mask_eq mask 1) imgs))
    (getitem_mask (mask_eq mask 0) imgs) =
  zip_with (λ (b : Z) img, if b =? 1 then flip_image img else img)
    mask imgs.
Proof.
  unfold mask_eq. revert out imgs.
  induction mask as [|b mask IH]; intros out imgs Hm Ho Hbits.
  - destruct imgs; [|done]. by destruct out.
  - destruct imgs as [|img imgs]; [done|].
    destruct out as [|o out]; [done|].
    apply Forall_cons in Hbits as [Hb Hbits].
    simpl in Hm, Ho.
    specialize (IH out imgs ltac:(lia) ltac:(lia) Hbits).
    destruct Hb as [->| ->]; simpl; f_equal; exact IH.
Qed.
End FlipFacts.

Section DrawFacts.
Context {G : Type} {RS : RandomState G}.

Lemma randint_size_length high k (g : G) :
  length (randint_size high k g).1 = k.
Proof.
  revert g. induction k as [|k IH]; intros g; [done|]. simpl.
  destruct (randint high g) as [x g1]. specialize (IH g1).
  destruct (randint_size high k g1) as [xs g2]. simpl in *. by rewrite IH.
Qed.

Lemma randint_size_range high k (g : G) :
  0 < high → Forall (λ b, 0 ≤ b < high) (randint_size high k g).1.
Proof.
  intros Hh. revert g. induction k as [|k IH]; intros g; [by constructor|].
  simpl. pose proof (randint_range high g Hh) as Hx.
  destruct (randint high g) as [x g1]. specialize (IH g1).
  destruct (randint_size high k g1) as [xs g2]. simpl in *.
  by constructor.
Qed.

Lemma random_sample_size_length k (g : G) :
  length (random_sample_size k g).1 = k.
Proof.
  revert g. induction k as [|k IH]; intros g; [done|]. simpl.
  destruct (random_sample g) as [x g1]. specialize (IH g1).
  destruct (random_sample_size k g1) as [xs g2]. simpl in *. by rewrite IH.
Qed.

Lemma random_sample_size_range k (g : G) :
  Forall (λ u, (0 <=? u)%float = true ∧ (u <? 1)%float = true)
    (random_sample_size k g).1.
Proof.
  revert g. induction k as [|k IH]; intros g; [by constructor|].
  simpl. pose proof (random_sample_range g) as Hx.
  destruct (random_sample g) as [x g1]. specialize (IH g1).
  destruct (random_sample_size k g1) as [xs g2]. simpl in *.
  by constructor.
Qed.

Lemma random_sample_size2_shape n c (g : G) :
  length (random_sample_size2 n c g).1 = n ∧
  Forall (λ r, length r = c ∧
               Forall (λ u, (0 <=? u)%float = true ∧
                            (u <? 1)%float = true) r)
    (random_sample_size2 n c g).1.
Proof.
  revert g. induction n as [|n IH]; intros g; [by split; constructor|].
  simpl. pose proof (random_sample_size_length c g) as Hl.
  pose proof (random_sample_size_range c g) as Hr.
  destruct (random_sample_size c g) as [r g1]. specialize (IH g1).
  destruct (random_sample_size2 n c g1) as [rs g2]. simpl in *.
  destruct IH as [IH1 IH2]. split; [by rewrite IH1|].
  by constructor.
Qed.
End DrawFacts.

Section RandomFlips.
Context {G : Type} {RS : RandomState G} {A : Type} (zero : A).
Implicit Types (X Y : ndarray A) (g : G).

(** What the two masked assignments amount to: image [n] is flipped when
    the [n]-th draw is 1 and copied when it is 0. *)
Lemma random_flips_eq X N C H W g :
  well_shaped X → shape X = (N, C, H, W) →
  random_flips zero X g =
  (NdArray (N, C, H, W)
     (zip_with (λ (b : Z) img, if b =? 1 then flip_image img else img)
        (randint_size 2 N g).1 (data X)),
   (randint_size 2 N g).2).
Proof.
  intros HwX HX. unfold random_flips, zeros_like, zeros. rewrite HX.
  pose proof (randint_size_length 2 N g) as Hlen.
  pose proof (randint_size_range 2 N g ltac:(lia)) as Hbits.
  destruct (randint_size 2 N g) as [mask g1]. simpl in *.
  unfold well_shaped in HwX. rewrite HX in HwX. destruct HwX as [HN _].
  rewrite flips_by_mask; [done|lia|by rewrite length_replicate|].
  eapply Forall_impl; [exact Hbits|]. intros b Hb. simpl in Hb. lia.
Qed.
End RandomFlips.

Example random_flips_2x4x5 :
  random_flips 0 batch_2x4x5 (7 : Z) =
  (NdArray (2, 1, 4, 5)%nat
    [[[[ 4;  3;  2;  1;  0]; [ 9;  8;  7;  6;  5];
       [14; 13; 12; 11; 10]; [19; 18; 17; 16; 15]]];
     [[[20; 21; 22; 23; 24]; [25; 26; 27; 28; 29];
       [30; 31; 32; 33; 34]; [35; 36; 37; 38; 39]]]],
   lcg_next (lcg_next 7)).
Proof. reflexivity. Qed.

(** C1. For a batch of shape (N, C, H, W), [random_flips] returns a batch
    of the same shape in which every image is either the image of [X] at
    the same index or that image with the samples of each row in reverse
    order; the choice is one per image, shared by all its channels and
    rows. For N = 0 the result is the empty batch. *)
Theorem random_flips_per_image {G : Type} {RS : RandomState G}
    {A : Type} (zero : A) (X : ndarray A) (N C H W : nat) (g : G) :
  well_shaped X → shape X = (N, C, H, W) →
  ∃ (flipped : list bool) (Y : ndarray A) (g' : G),
    random_flips zero X g = (Y, g') ∧
    shape Y = shape X ∧ well_shaped Y ∧ length flipped = N ∧
    (∀ n img, image X n = Some img →
       ∃ b : bool, flipped !! n = Some b ∧
            image Y n = Some (if b then flip_image img else img)) ∧
    (∀ (n c h w : nat) (b : bool),
       flipped !! n = Some b → (w < W)%nat →
       sample Y n c h w =
       sample X n c h (if b then (W - 1 - w)%nat else w)) ∧
    (N = 0%nat → data Y = []).
Proof.
  intros HwX HX.
  rewrite (random_flips_eq zero X N C H W) by done.
  pose proof (randint_size_length 2 N g) as Hlen.
  destruct (randint_size 2 N g) as [mask g1]. simpl in *.
  pose proof HwX as HwX'.
  unfold well_shaped in HwX'. rewrite HX in HwX'.
  destruct HwX' as [HN Himgs]. rewrite Forall_lookup in Himgs.
  exists (mask_eq mask 1). eexists. exists g1.
  split; [reflexivity|]. simpl.
  assert (∀ n img, data X !! n = Some img →
    ∃ b, mask !! n = Some b ∧
      zip_with (λ (b : Z) img, if b =? 1 then flip_image img else img)
        mask (data X) !! n =
      Some (if b =? 1 then flip_image img else img)) as Hzip.
  { intros n img Himg.
    destruct (lookup_lt_is_Some_2 mask n) as [b Hb].
    { apply lookup_lt_Some in Himg. lia. }
    exists b. split; [done|]. rewrite lookup_zip_with, Hb. simpl.
    by rewrite Himg. }
  split_and!.
  - by rewrite HX.
  - unfold well_shaped. simpl. split.
    + rewrite length_zip_with. lia.
    + apply Forall_lookup. intros n img' Hn.
      apply lookup_zip_with_Some in Hn as (b & img & -> & Hb & Himg).
      destruct (b =? 1); [apply flip_image_shaped|]; by eapply Himgs.
  - unfold mask_eq. by rewrite length_fmap.
  - intros n img Himg. unfold image in *. simpl.
    destruct (Hzip n img Himg) as (b & Hb & Hz).
    exists (b =? 1). split; [|done].
    unfold mask_eq. by rewrite list_lookup_fmap, Hb.
  - intros n c h w b Hb Hw. unfold sample. simpl.
    unfold mask_eq in Hb. rewrite list_lookup_fmap in Hb.
    destruct (mask !! n) as [z|] eqn:Hz; [|done]. simpl in Hb.
    injection Hb as <-.
    destruct (lookup_lt_is_Some_2 (data X) n) as [img Himg].
    { apply lookup_lt_Some in Hz. lia. }
    destruct (Hzip n img Himg) as (z' & Hz' & ->).
    rewrite Hz in Hz'. injection Hz' as <-. rewrite Himg. simpl.
    destruct (z =? 1); [|done].
    apply (flip_image_lookup C H W); [by apply (Himgs n)|done].
  - intros ->. by destruct mask.
Qed.

Lemma random_flips_per_image_witness :
  ∃ (flipped : list bool) (Y : ndarray Z) (g' : Z),
    random_flips 0 batch_2x4x5 (7 : Z) = (Y, g') ∧
    shape Y = shape batch_2x4x5 ∧ well_shaped Y ∧ length flipped = 2%nat ∧
    (∀ n img, image batch_2x4x5 n = Some img →
       ∃ b : bool, flipped !! n = Some b ∧
            image Y n = Some (if b then flip_image img else img)) ∧
    (∀ (n c h w : nat) (b : bool),
       flipped !! n = Some b → (w < 5)%nat →
       sample Y n c h w =
       sample batch_2x4x5 n c h (if b then (5 - 1 - w)%nat else w)) ∧
    (2%nat = 0%nat → data Y = []).
Proof.
  apply (random_flips_per_image 0 batch_2x4x5 2 1 4 5 (7 : Z)).
  - compute_done.
  - reflexivity.
Defined.

(** ** Binary64 arithmetic *)

(** A draw of [0, 1) is a zero or a positive finite number. *)
Lemma draw_spec (u : float) :
  (0 <=? u)%float = true → (u <? 1)%float = true →
  (∃ b, Prim2SF u = S754_zero b) ∨
  (∃ m e, Prim2SF u = S754_finite false m e).
Proof.
  rewrite leb_spec, ltb_spec.
  change (Prim2SF 0) with (S754_zero false).
  destruct (Prim2SF u) as [b|b| |b m e]; simpl; try done.
  - intros _ _. left. by exists b.
  - destruct b; try done.
  - destruct b; try done. intros _ _. right. by exists m, e.
Qed.

Lemma sub_diag_ordinary (s : float) :
  ordinary s → Prim2SF (s - s) = S754_zero false.
Proof.
  unfold ordinary. rewrite sub_spec. unfold SF64sub.
  destruct (Prim2SF s) as [b|b| |b m e]; try done.
  - by destruct b.
  - intros _. unfold SFsub. by rewrite Z.sub_diag.
Qed.

(** With low = high = s the factor of [random_contrast] is [s]. *)
Lemma affine_degenerate (s u : float) :
  ordinary s → (0 <=? u)%float = true → (u <? 1)%float = true →
  (s + (s - s) * u)%float = s.
Proof.
  intros Hs H0 H1. apply Prim2SF_inj.
  rewrite add_spec, mul_spec, (sub_diag_ordinary s Hs).
  unfold ordinary in Hs. unfold SF64add, SF64mul.
  destruct (draw_spec u H0 H1) as [[b ->]|(m & e & ->)]; simpl.
  - destruct (Prim2SF s) as [c|c| |c m e]; try done.
    by destruct c, b.
  - destruct (Prim2SF s) as [c|c| |c m' e']; try done.
    by destruct c.
Qed.

(** With low = high = t every offset of [random_tint] is [t]. *)
Lemma affine_degenerate_tint (s u : float) :
  ordinary s → (0 <=? u)%float = true → (u <? 1)%float = true →
  ((s - s) * u + s)%float = s.
Proof.
  intros Hs H0 H1. apply Prim2SF_inj.
  rewrite add_spec, mul_spec, (sub_diag_ordinary s Hs).
  unfold ordinary in Hs. unfold SF64add, SF64mul.
  destruct (draw_spec u H0 H1) as [[b ->]|(m & e & ->)]; simpl.
  - destruct (Prim2SF s) as [c|c| |c m e]; try done.
    by destruct c, b.
  - destruct (Prim2SF s) as [c|c| |c m' e']; try done.
    by destruct c.
Qed.

(** Comparisons with a positive finite number. *)
Lemma SFleb_finite_inv (x : spec_float) (m0 : positive) (e0 : Z) :
  SFleb (S754_finite false m0 e0) x = true →
  x = S754_infinity false ∨
  ∃ m e, x = S754_finite false m e ∧
         (e0 < e ∨ (e0 = e ∧ (m0 ≤ m)%positive)).
Proof.
  unfold SFleb, SFcompare.
  destruct x as [b|b| |b m e]; try discriminate.
  - destruct b; try discriminate. by left.
  - destruct b; try discriminate. intros H. right. exists m, e.
    split; [done|].
    destruct (Z.compare_spec e0 e) as [He|He|He].
    + right. split; [done|].
      change (Pos.compare_cont Eq m0 m) with (m0 ?= m)%positive in H.
      destruct (Pos.compare_spec m0 m) as [Hm|Hm|Hm];
        [lia|lia|discriminate].
    + left. lia.
    + discriminate.
Qed.

Lemma SFltb_finite_inv (m m0 : positive) (e' e0 : Z) :
  SFltb (S754_finite false m e') (S754_finite false m0 e0) = true →
  e' < e0 ∨ (e' = e0 ∧ (m < m0)%positive).
Proof.
  unfold SFltb, SFcompare. intros H.
  destruct (Z.compare_spec e' e0) as [He|He|He].
  - right. split; [done|].
    change (Pos.compare_cont Eq m m0) with (m ?= m0)%positive in H.
    destruct (Pos.compare_spec m m0) as [Hm|Hm|Hm];
      [discriminate|lia|discriminate].
  - left. lia.
  - discriminate.
Qed.

Lemma prim_one : Prim2SF 1 = S754_finite false 4503599627370496 (-52).
Proof. by vm_compute. Qed.

Lemma prim_next_after_one :
  Prim2SF next_after_one = S754_finite false 4503599627370497 (-52).
Proof. by vm_compute. Qed.

(** No number lies strictly between 1 and the next one. *)
Lemma between_one_and_next (f : float) :
  (1 <=? f)%float = true → (f <? next_after_one)%float = true →
  f = 1%float.
Proof.
  rewrite leb_spec, ltb_spec, prim_one, prim_next_after_one.
  intros H1 H2. apply Prim2SF_inj. rewrite prim_one.
  apply SFleb_finite_inv in H1 as [H1|(m & e & Hf & H1)].
  - rewrite H1 in H2. discriminate.
  - rewrite Hf in *. apply SFltb_finite_inv in H2.
    destruct H1 as [H1|[H1 Hm1]], H2 as [H2|[H2 Hm2]];
      try (exfalso; clear -H1 H2; lia).
    rewrite H2. f_equal.
    change 4503599627370497%positive
      with (Pos.succ 4503599627370496) in Hm2.
    apply Pos.lt_succ_r in Hm2. by apply Pos.le_antisym.
Qed.

(** ** [random_contrast] and [random_tint] *)

Section Arithmetic.
Implicit Types (X Y : ndarray float).

Lemma sample_scale_array X (f : float) (n c h w : nat) :
  sample (scale_array X f) n c h w =
  (λ v, (v * f)%float) <$> sample X n c h w.
Proof.
  unfold sample, scale_array. simpl. rewrite list_lookup_fmap.
  destruct (data X !! n) as [img|]; [|done]. simpl.
  rewrite list_lookup_fmap. destruct (img !! c) as [ch|]; [|done]. simpl.
  rewrite list_lookup_fmap. destruct (ch !! h) as [r|]; [|done]. simpl.
  by rewrite list_lookup_fmap.
Qed.

Lemma lookup_add_channel (ch : list (list float)) (t : float) (h w : nat) :
  (r ← add_channel ch t !! h; r !! w) =
  (λ v, (v + t)%float) <$> (r ← ch !! h; r !! w).
Proof.
  unfold add_channel. rewrite list_lookup_fmap.
  destruct (ch !! h) as [r|]; [|done]. simpl.
  by rewrite list_lookup_fmap.
Qed.

Lemma sample_add_per_channel X (l : list (list float)) (n c h w : nat) :
  sample (add_per_channel X l) n c h w =
  (v ← sample X n c h w; t ← (r ← l !! n; r !! c); Some (v + t)%float).
Proof.
  unfold sample, add_per_channel. simpl. rewrite lookup_zip_with.
  destruct (data X !! n) as [img|]; [|done]. simpl.
  destruct (l !! n) as [ts|]; simpl.
  - rewrite lookup_zip_with.
    destruct (img !! c) as [ch|]; [|done]. simpl.
    destruct (ts !! c) as [t|]; simpl.
    + rewrite lookup_add_channel. by destruct (ch !! h ≫= _).
    + by destruct (ch !! h ≫= _).
  - by destruct (img !! c ≫= _).
Qed.

Lemma sample_add_scalar X (t : float) (n c h w : nat) :
  sample (add_scalar X t) n c h w =
  (λ v, (v + t)%float) <$> sample X n c h w.
Proof.
  unfold sample, add_scalar. simpl. rewrite list_lookup_fmap.
  destruct (data X !! n) as [img|]; [|done]. simpl.
  rewrite list_lookup_fmap. destruct (img !! c) as [ch|]; [|done]. simpl.
  apply lookup_add_channel.
Qed.

(** Adding a matrix whose entries are all [t] is adding [t]. *)
Lemma add_per_channel_constant X (N C H W : nat) (l : list (list float))
    (t : float) :
  well_shaped X → shape X = (N, C, H, W) →
  length l = N → Forall (λ r, length r = C ∧ Forall (λ v, v = t) r) l →
  add_per_channel X l = add_scalar X t.
Proof.
  intros HwX HX Hl Hrows. unfold add_per_channel, add_scalar. f_equal.
  unfold well_shaped in HwX. rewrite HX in HwX. destruct HwX as [HN Himgs].
  rewrite Forall_lookup in Himgs. rewrite Forall_lookup in Hrows.
  apply list_eq. intros n. rewrite lookup_zip_with, list_lookup_fmap.
  destruct (data X !! n) as [img|] eqn:Himg; [|done]. simpl.
  destruct (lookup_lt_is_Some_2 l n) as [ts Hts].
  { apply lookup_lt_Some in Himg. lia. }
  rewrite Hts. simpl. f_equal.
  destruct (Himgs _ _ Himg) as [HC _].
  destruct (Hrows _ _ Hts) as [HC' Hall].
  rewrite Forall_lookup in Hall.
  apply list_eq. intros c. rewrite lookup_zip_with, list_lookup_fmap.
  destruct (img !! c) as [ch|] eqn:Hch; [|done]. simpl.
  destruct (lookup_lt_is_Some_2 ts c) as [v Hv].
  { apply lookup_lt_Some in Hch. lia. }
  rewrite Hv. simpl. by rewrite (Hall _ _ Hv).
Qed.
End Arithmetic.

Example random_contrast_batch_f :
  random_contrast batch_f (2%float, 4%float) [0.5%float] =
  (NdArray (1, 2, 1, 2)%nat
     [[[[3%float; 6%float]]; [[9%float; 1.5%float]]]], []).
Proof. by vm_compute. Qed.

Example random_tint_batch_f :
  random_tint batch_f (2%float, 4%float) [0.5%float; 0.25%float] =
  (NdArray (1, 2, 1, 2)%nat
     [[[[4%float; 5%float]]; [[5.5%float; 3%float]]]], []).
Proof. by vm_compute. Qed.

(** The claim of C3 fails as worded: for the scale pair
    (1, 1 + 2^-52) and the draw 0.8084340076893568 of [0, 1), rounding
    makes the factor equal to the upper end, and no factor [f] with
    1 ≤ f < 1 + 2^-52 gives the batch the call returns. *)
Lemma random_contrast_reaches_high_counterexample :
  (1 <? next_after_one)%float = true ∧
  random_sample [rounding_draw] = (rounding_draw, []) ∧
  (random_contrast batch_half (1%float, next_after_one) [rounding_draw]).1 =
    scale_array batch_half next_after_one ∧
  ¬ (∃ f : float,
       (1 <=? f)%float = true ∧ (f <? next_after_one)%float = true ∧
       (random_contrast batch_half (1%float, next_after_one)
          [rounding_draw]).1 = scale_array batch_half f).
Proof.
  split_and!; [by vm_compute..|].
  intros (f & Hlo & Hhi & Hf).
  rewrite (between_one_and_next f Hlo Hhi) in Hf.
  apply (f_equal (λ Y, Prim2SF <$> sample Y 0 0 0 0)) in Hf.
  vm_compute in Hf. discriminate.
Qed.

(** C3 (amended). For every batch and every scale pair (low, high),
    [random_contrast] returns [X * f] for a single factor [f], the same for
    all images, channels and positions, where [f] is the binary64 value of
    [low + (high - low) * u] for one draw [u] of [0, 1); in the degenerate
    case low = high = s, for a finite [s] other than the negative zero, the
    result is exactly [X * s]. *)
Theorem random_contrast_single_factor {G : Type} {RS : RandomState G}
    (X : ndarray float) (low high : float) (g : G) :
  ∃ (u f : float) (Y : ndarray float) (g' : G),
    random_contrast X (low, high) g = (Y, g') ∧
    (0 <=? u)%float = true ∧ (u <? 1)%float = true ∧
    f = (low + (high - low) * u)%float ∧
    Y = scale_array X f ∧
    shape Y = shape X ∧
    (∀ n c h w : nat,
       sample Y n c h w = (λ v, (v * f)%float) <$> sample X n c h w) ∧
    (low = high → ordinary low → f = low ∧ Y = scale_array X low).
Proof.
  unfold random_contrast, uniform.
  pose proof (random_sample_range g) as [Hu0 Hu1].
  destruct (random_sample g) as [u g1]. simpl in *.
  exists u, (low + (high - low) * u)%float. eexists. exists g1.
  split; [reflexivity|]. split_and!; try done.
  - intros n c h w. apply sample_scale_array.
  - intros <- Hs. by rewrite affine_degenerate.
Qed.

(** The claim of C4 fails as worded: for the scale pair
    (1, 1 + 2^-52) and the draw 0.8084340076893568 of [0, 1), rounding
    makes the offset equal to the upper end, and no matrix of offsets with
    its entry in [1, 1 + 2^-52) gives the batch the call returns. *)
Lemma random_tint_reaches_high_counterexample :
  (1 <? next_after_one)%float = true ∧
  random_sample [rounding_draw] = (rounding_draw, []) ∧
  (random_tint batch_half (1%float, next_after_one) [rounding_draw]).1 =
    add_per_channel batch_half [[next_after_one]] ∧
  ¬ (∃ L : list (list float),
       length L = 1%nat ∧
       Forall (λ r, length r = 1%nat ∧
                    Forall (λ t, (1 <=? t)%float = true ∧
                                 (t <? next_after_one)%float = true) r) L ∧
       (random_tint batch_half (1%float, next_after_one)
          [rounding_draw]).1 = add_per_channel batch_half L).
Proof.
  split_and!; [by vm_compute..|].
  intros (L & HL & Hrows & HY).
  destruct L as [|r [|? ?]]; try done.
  apply Forall_cons in Hrows as [[Hr Hin] _].
  destruct r as [|t [|? ?]]; try done.
  apply Forall_cons in Hin as [[Hlo Hhi] _].
  rewrite (between_one_and_next t Hlo Hhi) in HY.
  apply (f_equal (λ Y, Prim2SF <$> sample Y 0 0 0 0)) in HY.
  vm_compute in HY. discriminate.
Qed.

(** C4 (amended). For a batch of shape (N, C, H, W) and every scale pair
    (low, high), [random_tint] returns [X] plus an offset that depends on
    the image and the channel only: there is an (N, C) matrix [L] with
    [out[n, c, h, w] = X[n, c, h, w] + L[n, c]], each entry of [L] being
    the binary64 value of [(high - low) * u + low] for a draw [u] of
    [0, 1) of its own; in the degenerate case low = high = t, for a finite
    [t] other than the negative zero, the result is exactly [X + t]. *)
Theorem random_tint_per_channel_offset {G : Type} {RS : RandomState G}
    (X : ndarray float) (N C H W : nat) (low high : float) (g : G) :
  well_shaped X → shape X = (N, C, H, W) →
  ∃ (U L : list (list float)) (Y : ndarray float) (g' : G),
    random_tint X (low, high) g = (Y, g') ∧
    shape Y = shape X ∧
    length L = N ∧ Forall (λ r, length r = C) L ∧
    Forall (Forall (λ u, (0 <=? u)%float = true ∧ (u <? 1)%float = true))
      U ∧
    L = fmap (M := list)
          (fmap (M := list) (λ u, ((high - low) * u + low)%float)) U ∧
    (∀ n c h w : nat,
       sample Y n c h w =
       (v ← sample X n c h w; t ← (r ← L !! n; r !! c);
        Some (v + t)%float)) ∧
    (low = high → ordinary low →
     Forall (Forall (λ t, t = low)) L ∧ Y = add_scalar X low).
Proof.
  intros HwX HX. unfold random_tint. rewrite HX. simpl.
  pose proof (random_sample_size2_shape N C g) as [Hlen Hrows].
  destruct (random_sample_size2 N C g) as [U g1]. simpl in *.
  set (l := fmap (M := list) (fmap (M := list)
              (λ v, ((high - low) * v + low)%float)) U).
  exists U, l. eexists. exists g1. split; [reflexivity|].
  assert (length l = N) as Hl by (subst l; by rewrite length_fmap).
  assert (Forall (λ r, length r = C) l) as HlC.
  { subst l. apply Forall_fmap. eapply Forall_impl; [exact Hrows|].
    intros r [Hr _]. simpl. by rewrite length_fmap. }
  assert (Forall (Forall (λ u, (0 <=? u)%float = true ∧
                               (u <? 1)%float = true)) U) as HU.
  { eapply Forall_impl; [exact Hrows|]. by intros r [_ Hr]. }
  split_and!; try done.
  - intros n c h w. apply sample_add_per_channel.
  - intros <- Hs.
    assert (Forall (Forall (λ t, t = low)) l) as Hconst.
    { subst l. apply Forall_fmap. eapply Forall_impl; [exact HU|].
      intros r Hr. simpl. apply Forall_fmap.
      eapply Forall_impl; [exact Hr|].
      intros u [Hu0 Hu1]. simpl. by apply affine_degenerate_tint. }
    split; [done|].
    apply (add_per_channel_constant X N C H W); try done.
    rewrite Forall_lookup in HlC. rewrite Forall_lookup in Hconst.
    apply Forall_lookup. intros i r Hr.
    split; [by eapply HlC|by eapply Hconst].
Qed.

Lemma random_tint_per_channel_offset_witness :
  ∃ (U L : list (list float)) (Y : ndarray float) (g' : Z),
    random_tint batch_f (2%float, 4%float) (7 : Z) = (Y, g') ∧
    shape Y = shape batch_f ∧
    length L = 1%nat ∧ Forall (λ r, length r = 2%nat) L ∧
    Forall (Forall (λ u, (0 <=? u)%float = true ∧ (u <? 1)%float = true))
      U ∧
    L = fmap (M := list)
          (fmap (M := list) (λ u, ((4 - 2) * u + 2)%float)) U ∧
    (∀ n c h w : nat,
       sample Y n c h w =
       (v ← sample batch_f n c h w; t ← (r ← L !! n; r !! c);
        Some (v + t)%float)) ∧
    (2%float = 4%float → ordinary 2 →
     Forall (Forall (λ t, t = 2%float)) L ∧ Y = add_scalar batch_f 2).
Proof.
  apply (random_tint_per_channel_offset batch_f 1 2 1 2 2 4 (7 : Z)).
  - compute_done.
  - reflexivity.
Defined.

(** ** Running a call in a store *)

Section StoreFacts.
Context {A G : Type} {RS : RandomState G}.
Implicit Types (h : gmap loc (ndarray A)) (σ : state A G) (r X : aref).

Lemma deref_view h r sh sw :
  deref h (view r sh sw) = (λ x, getitem_hw x sh sw) <$> deref h r.
Proof.
  unfold deref, view. simpl. destruct (h !! base r) as [b|]; [|done].
  simpl. by rewrite foldl_app.
Qed.

Lemma deref_weaken h h' r x :
  h ⊆ h' → deref h r = Some x → deref h' r = Some x.
Proof.
  intros Hsub. unfold deref.
  destruct (h !! base r) as [b|] eqn:Hb; [|done].
  by rewrite (lookup_weaken h h' _ _ Hb Hsub).
Qed.

Lemma fresh_unused h : h !! fresh (dom h) = None.
Proof. apply not_elem_of_dom, is_fresh. Qed.

Lemma deref_insert_unused h l v r x :
  h !! l = None → deref h r = Some x → deref (<[l := v]> h) r = Some x.
Proof. intros Hl. by apply deref_weaken, insert_subseteq. Qed.

Lemma deref_base h l v : deref (<[l := v]> h) (ARef l []) = Some v.
Proof. unfold deref. simpl. by rewrite lookup_insert_eq. Qed.

(** One step of a computation. *)
Lemma bind_load {T : Type} r v (k : ndarray A → py A G T) σ :
  deref (heap σ) r = Some v → (load r ≫= k) σ = k v σ.
Proof.
  intros Hr. unfold mbind, py_bind, load. by rewrite Hr.
Qed.

Lemma bind_new {T : Type} v (k : loc → py A G T) σ :
  (new v ≫= k) σ =
  k (fresh (dom (heap σ)))
    (State (<[fresh (dom (heap σ)) := v]> (heap σ)) (rng σ)).
Proof. done. Qed.

Lemma bind_update {T : Type} l f v (k : unit → py A G T) σ :
  heap σ !! l = Some v →
  (update l f ≫= k) σ = k () (State (<[l := f v]> (heap σ)) (rng σ)).
Proof.
  intros Hl. unfold mbind, py_bind, update. by rewrite Hl.
Qed.

Lemma bind_draw {T U : Type} (d : G → U * G) (k : U → py A G T) σ :
  (draw d ≫= k) σ = k (d (rng σ)).1 (State (heap σ) (d (rng σ)).2).
Proof.
  unfold mbind, py_bind, draw. by destruct (d (rng σ)).
Qed.

(** [random_flips]: the result is a new buffer holding the value the
    transform computes; no other buffer changes. *)
Lemma random_flips_st_run (zero : A) X x σ :
  deref (heap σ) X = Some x →
  random_flips_st zero X σ =
  Some (Ok (ARef (fresh (dom (heap σ))) []),
        State (<[fresh (dom (heap σ)) := (random_flips zero x (rng σ)).1]>
                 (heap σ))
              (random_flips zero x (rng σ)).2).
Proof.
  intros HX. unfold random_flips_st, random_flips.
  rewrite (bind_load X x) by done.
  destruct (shape x) as [[[N C] H] W] eqn:Hx.
  rewrite bind_draw. destruct (randint_size 2 N (rng σ)) as [mask g1].
  simpl fst. simpl snd. rewrite bind_new. simpl heap. simpl rng.
  pose proof (fresh_unused (heap σ)) as Hl.
  set (l := fresh (dom (heap σ))) in *.
  rewrite (bind_load X x) by (simpl; by apply deref_insert_unused).
  rewrite (bind_update l _ (zeros_like zero x))
    by (simpl; apply lookup_insert_eq).
  simpl heap. simpl rng. rewrite insert_insert_eq.
  rewrite (bind_load X x) by (simpl; by apply deref_insert_unused).
  erewrite (bind_update l) by (simpl; apply lookup_insert_eq).
  simpl heap. simpl rng. rewrite insert_insert_eq.
  reflexivity.
Qed.
End StoreFacts.

Section StoreRuns.
Context {A G : Type} {RS : RandomState G}.
Implicit Types (h : gmap loc (ndarray A)) (σ : state A G) (r X : aref).

Lemma returns_unchanged_intro (m : py A G aref) σ X x res σ' v :
  deref (heap σ) X = Some x →
  m σ = Some (res, σ') → heap σ ⊆ heap σ' → rng σ' = v.2 →
  denotes (heap σ') res v.1 → returns_unchanged m σ X v.
Proof.
  intros HX Hm Hsub Hg Hd. exists res, σ'. split_and!; try done.
  rewrite HX. by apply (deref_weaken (heap σ)).
Qed.

Lemma random_flips_st_unchanged (zero : A) X x σ :
  deref (heap σ) X = Some x →
  returns_unchanged (random_flips_st zero X) σ X
    (Ok (random_flips zero x (rng σ)).1, (random_flips zero x (rng σ)).2).
Proof.
  intros HX. eapply returns_unchanged_intro; [done| |..].
  - by apply random_flips_st_run.
  - simpl. apply insert_subseteq, fresh_unused.
  - done.
  - simpl. apply deref_base.
Qed.

Lemma random_crops_st_unchanged (zero : A) X x crop_shape σ :
  deref (heap σ) X = Some x →
  returns_unchanged (random_crops_st zero X crop_shape) σ X
    (random_crops zero x crop_shape (rng σ)).
Proof.
  intros HX. unfold random_crops_st, random_crops.
  destruct crop_shape as [HH WW].
  destruct (shape x) as [[[N C] H] W] eqn:Hx.
  destruct (negb ((HH <? Z.of_nat H) && (WW <? Z.of_nat W))) eqn:Hassert.
  - eapply returns_unchanged_intro; [done| |..].
    + rewrite (bind_load X x) by done. rewrite Hx, Hassert. done.
    + done.
    + done.
    + done.
  - destruct (np_zeros zero N C HH WW) as [z|e] eqn:Hz.
    + destruct (randint (Z.of_nat H - HH) (rng σ)) as [xo g1] eqn:Hxo.
      destruct (randint (Z.of_nat W - WW) g1) as [yo g2] eqn:Hyo.
      eapply returns_unchanged_intro; [done| |..].
      * rewrite (bind_load X x) by done. rewrite Hx, Hassert, Hz.
        rewrite bind_new, bind_draw. simpl rng. rewrite Hxo.
        rewrite bind_draw. simpl rng. rewrite Hyo. done.
      * simpl. apply insert_subseteq, fresh_unused.
      * done.
      * simpl. rewrite deref_view.
        rewrite (deref_insert_unused _ _ _ X x (fresh_unused _) HX).
        done.
    + eapply returns_unchanged_intro; [done| |..].
      * rewrite (bind_load X x) by done. rewrite Hx, Hassert, Hz. done.
      * done.
      * done.
      * done.
Qed.

Lemma fixed_crops_st_unchanged X x crop_shape crop_type σ :
  deref (heap σ) X = Some x →
  returns_unchanged (fixed_crops_st X crop_shape crop_type) σ X
    (fixed_crops x crop_shape crop_type, rng σ).
Proof.
  intros HX. unfold fixed_crops_st, fixed_crops.
  destruct crop_shape as [HH WW].
  destruct (shape x) as [[[N C] H] W] eqn:Hx.
  destruct (String.eqb crop_type "center") eqn:E1;
    [|destruct (String.eqb crop_type "ul") eqn:E2;
      [|destruct (String.eqb crop_type "ur") eqn:E3;
        [|destruct (String.eqb crop_type "bl") eqn:E4;
          [|destruct (String.eqb crop_type "br") eqn:E5]]]].
  all: eapply returns_unchanged_intro;
    [ done
    | rewrite (bind_load X x) by done;
      rewrite Hx, ?E1, ?E2, ?E3, ?E4, ?E5; reflexivity
    | done
    | done
    | simpl; by rewrite ?deref_view, ?HX ].
Qed.
End StoreRuns.

Section StoreRunsArithmetic.
Context {G : Type} {RS : RandomState G}.
Implicit Types (σ : state float G) (X : aref).

Lemma random_contrast_st_unchanged X x scale σ :
  deref (heap σ) X = Some x →
  returns_unchanged (random_contrast_st X scale) σ X
    (Ok (random_contrast x scale (rng σ)).1,
     (random_contrast x scale (rng σ)).2).
Proof.
  intros HX. unfold random_contrast_st, random_contrast.
  destruct scale as [low high].
  pose proof (fresh_unused (heap σ)) as Hl.
  destruct (uniform low high (rng σ)) as [scalar g1] eqn:Hu.
  eapply returns_unchanged_intro; [done| |..].
  - rewrite (bind_load X x) by done. rewrite bind_new, bind_draw.
    simpl rng. rewrite Hu. simpl fst. simpl snd.
    rewrite (bind_load X x) by (simpl; by apply deref_insert_unused).
    rewrite bind_new. reflexivity.
  - simpl. etrans; [by apply insert_subseteq|].
    apply insert_subseteq, fresh_unused.
  - done.
  - simpl. apply deref_base.
Qed.

Lemma random_tint_st_unchanged X x scale σ :
  deref (heap σ) X = Some x →
  returns_unchanged (random_tint_st X scale) σ X
    (Ok (random_tint x scale (rng σ)).1, (random_tint x scale (rng σ)).2).
Proof.
  intros HX. unfold random_tint_st, random_tint.
  destruct scale as [low high].
  pose proof (fresh_unused (heap σ)) as Hl.
  destruct ((shape x).1.1) as [N C] eqn:Hx.
  destruct (random_sample_size2 N C (rng σ)) as [u g1] eqn:Hu.
  eapply returns_unchanged_intro; [done| |..].
  - rewrite (bind_load X x) by done. rewrite Hx.
    rewrite bind_new, bind_draw.
    simpl rng. rewrite Hu. simpl fst. simpl snd.
    rewrite (bind_load X x) by (simpl; by apply deref_insert_unused).
    rewrite bind_new. reflexivity.
  - simpl. etrans; [by apply insert_subseteq|].
    apply insert_subseteq, fresh_unused.
  - done.
  - simpl. apply deref_base.
Qed.
End StoreRunsArithmetic.

Example random_crops_st_view :
  random_crops_st 0 whole (2, 2) store_3x3 =
  Some (Ok (ARef 1%positive [(from_to 0 2, from_to 0 2)]),
        State (<[2%positive := zeros 0 (1, 1, 2, 2)%nat]>
                 {[ 1%positive := batch_3x3 ]})
              (lcg_next (lcg_next 7))).
Proof. reflexivity. Qed.

Example deref_lower_rows :
  deref (heap store_3x3) lower_rows =
  Some (NdArray (1, 1, 2, 3)%nat [[[[4; 5; 6]; [7; 8; 9]]]]).
Proof. reflexivity. Qed.

(** C9. No function of the module mutates its input. Run in any store on
    an array object [X], each of [random_flips], [random_crops],
    [random_contrast], [random_tint] and [fixed_crops] ends, leaves every
    buffer of the store as it was, so that [X] holds the same samples after
    the call as before it, and hands back its outcome apart from that: the
    exception, or an object denoting the array computed from [X]. *)
Theorem inputs_not_mutated {G : Type} {RS : RandomState G} {A : Type}
    (zero : A) (σ : state A G) (σq : state float G) (X Xq : aref)
    (x : ndarray A) (xq : ndarray float) (crop_shape : Z * Z)
    (crop_type : string) (scale : float * float) :
  deref (heap σ) X = Some x → deref (heap σq) Xq = Some xq →
  returns_unchanged (random_flips_st zero X) σ X
    (Ok (random_flips zero x (rng σ)).1, (random_flips zero x (rng σ)).2) ∧
  returns_unchanged (random_crops_st zero X crop_shape) σ X
    (random_crops zero x crop_shape (rng σ)) ∧
  returns_unchanged (random_contrast_st Xq scale) σq Xq
    (Ok (random_contrast xq scale (rng σq)).1,
     (random_contrast xq scale (rng σq)).2) ∧
  returns_unchanged (random_tint_st Xq scale) σq Xq
    (Ok (random_tint xq scale (rng σq)).1,
     (random_tint xq scale (rng σq)).2) ∧
  returns_unchanged (fixed_crops_st X crop_shape crop_type) σ X
    (fixed_crops x crop_shape crop_type, rng σ).
Proof.
  intros HX HXq. split_and!.
  - by apply random_flips_st_unchanged.
  - by apply random_crops_st_unchanged.
  - by apply random_contrast_st_unchanged.
  - by apply random_tint_st_unchanged.
  - by apply fixed_crops_st_unchanged.
Qed.

Lemma inputs_not_mutated_witness :
  returns_unchanged (random_flips_st 0 lower_rows) store_3x3 lower_rows
    (Ok (random_flips 0 (NdArray (1, 1, 2, 3)%nat [[[[4; 5; 6]; [7; 8; 9]]]])
           (7 : Z)).1,
     (random_flips 0 (NdArray (1, 1, 2, 3)%nat [[[[4; 5; 6]; [7; 8; 9]]]])
        (7 : Z)).2) ∧
  returns_unchanged (random_crops_st 0 lower_rows (1, 2)) store_3x3
    lower_rows
    (random_crops 0 (NdArray (1, 1, 2, 3)%nat [[[[4; 5; 6]; [7; 8; 9]]]])
       (1, 2) (7 : Z)) ∧
  returns_unchanged (random_contrast_st whole (2%float, 4%float)) store_f whole
    (Ok (random_contrast batch_f (2%float, 4%float) (7 : Z)).1,
     (random_contrast batch_f (2%float, 4%float) (7 : Z)).2) ∧
  returns_unchanged (random_tint_st whole (2%float, 4%float)) store_f whole
    (Ok (random_tint batch_f (2%float, 4%float) (7 : Z)).1,
     (random_tint batch_f (2%float, 4%float) (7 : Z)).2) ∧
  returns_unchanged (fixed_crops_st lower_rows (1, 2) "br") store_3x3
    lower_rows
    (fixed_crops (NdArray (1, 1, 2, 3)%nat [[[[4; 5; 6]; [7; 8; 9]]]])
       (1, 2) "br", (7 : Z)).
Proof.
  apply (inputs_not_mutated 0 store_3x3 store_f lower_rows whole
           (NdArray (1, 1, 2, 3)%nat [[[[4; 5; 6]; [7; 8; 9]]]]) batch_f
           (1, 2) "br" (2%float, 4%float)).
  - reflexivity.
  - reflexivity.
Defined.

(** * Further properties *)

(** ** Windows that take a whole axis *)

Lemma getslice_full {B : Type} s (l : list B) :
  slice_start s (length l) = 0%nat → slice_len s (length l) = length l →
  getslice s l = l.
Proof.
  intros Hs Hl. unfold getslice. rewrite Hs, Hl. simpl. by apply take_ge.
Qed.

Lemma slice_from_neg_fits (b : Z) (len : nat) :
  0 ≤ b ≤ Z.of_nat len → (b = 0 → len = 0%nat) →
  slice_start (from (- b)) len = Z.to_nat (Z.of_nat len - b) ∧
  slice_len (from (- b)) len = Z.to_nat b.
Proof.
  intros Hb Hz. destruct (decide (b = 0)) as [->|Hne].
  - rewrite (Hz eq_refl). by vm_compute.
  - apply slice_from_neg_inside; lia.
Qed.

Section WholeAxis.
Context {A : Type}.
Implicit Types (X Y : ndarray A) (ch : list (list A))
  (img : list (list (list A))).

Lemma crop_channel_full sh sw H W ch :
  channel_shaped H W ch →
  slice_start sh H = 0%nat → slice_len sh H = H →
  slice_start sw W = 0%nat → slice_len sw W = W →
  crop_channel sh sw ch = ch.
Proof.
  intros [Hlen Hrows] Hsh Hlh Hsw Hlw. unfold crop_channel.
  rewrite getslice_full by (by rewrite Hlen).
  unfold rows_shaped in Hrows. rewrite Forall_lookup in Hrows.
  apply list_eq. intros i. rewrite list_lookup_fmap.
  destruct (ch !! i) as [r|] eqn:Hr; [|done]. simpl. f_equal.
  pose proof (Hrows _ _ Hr) as Hrlen. simpl in Hrlen.
  apply getslice_full; by rewrite Hrlen.
Qed.

Lemma getitem_hw_full X sh sw N C H W :
  well_shaped X → shape X = (N, C, H, W) →
  slice_start sh H = 0%nat → slice_len sh H = H →
  slice_start sw W = 0%nat → slice_len sw W = W →
  getitem_hw X sh sw = X.
Proof.
  intros HwX HX Hsh Hlh Hsw Hlw. destruct X as [shp imgs].
  unfold well_shaped in HwX. simpl in *. subst shp.
  destruct HwX as [_ Himgs]. rewrite Forall_lookup in Himgs.
  unfold getitem_hw. simpl. rewrite Hlh, Hlw. f_equal.
  apply list_eq. intros n. rewrite list_lookup_fmap.
  destruct (imgs !! n) as [img|] eqn:Himg; [|done]. simpl. f_equal.
  destruct (Himgs _ _ Himg) as [_ Hchs]. rewrite Forall_lookup in Hchs.
  unfold crop_image. apply list_eq. intros c. rewrite list_lookup_fmap.
  destruct (img !! c) as [ch|] eqn:Hch; [|done]. simpl. f_equal.
  apply (crop_channel_full sh sw H W); [by apply (Hchs c)|done..].
Qed.

(** The window each recognized tag selects when the crop fits. *)
Lemma fixed_crops_window X N C H W HH WW tag :
  shape X = (N, C, H, W) →
  tag ∈ ["center"; "ul"; "ur"; "bl"; "br"] →
  0 ≤ HH ≤ Z.of_nat H → (HH = 0 → H = 0%nat) →
  0 ≤ WW ≤ Z.of_nat W → (WW = 0 → W = 0%nat) →
  ∃ sh sw,
    fixed_crops X (HH, WW) tag = Ok (getitem_hw X sh sw) ∧
    slice_len sh H = Z.to_nat HH ∧ slice_len sw W = Z.to_nat WW ∧
    (HH = Z.of_nat H → slice_start sh H = 0%nat) ∧
    (WW = Z.of_nat W → slice_start sw W = 0%nat).
Proof.
  intros HX Htag HHH HzH HWW HzW.
  destruct (slice_up_to_inside HH H) as [Hs1 Hl1]; [lia..|].
  destruct (slice_up_to_inside WW W) as [Hs2 Hl2]; [lia..|].
  destruct (slice_from_neg_fits HH H) as [Hs3 Hl3]; [lia|done|].
  destruct (slice_from_neg_fits WW W) as [Hs4 Hl4]; [lia|done|].
  set (y := (Z.of_nat H - HH) / 2). set (x := (Z.of_nat W - WW) / 2).
  assert (0 ≤ y ∧ 2 * y ≤ Z.of_nat H - HH) as [Hy0 Hy1].
  { subst y. split; [apply Z.div_pos; lia|]. apply Z.mul_div_le. lia. }
  assert (0 ≤ x ∧ 2 * x ≤ Z.of_nat W - WW) as [Hx0 Hx1].
  { subst x. split; [apply Z.div_pos; lia|]. apply Z.mul_div_le. lia. }
  destruct (slice_from_to_inside y (y + HH) H) as [Hs5 Hl5]; [lia..|].
  destruct (slice_from_to_inside x (x + WW) W) as [Hs6 Hl6]; [lia..|].
  replace (y + HH - y) with HH in Hl5 by lia.
  replace (x + WW - x) with WW in Hl6 by lia.
  repeat (apply elem_of_cons in Htag as [->|Htag]);
    [..|by apply elem_of_nil in Htag].
  - exists (from_to y (y + HH)), (from_to x (x + WW)). split_and!; try done.
    + by rewrite fixed_crops_center_eq, HX.
    + intros ->. rewrite Hs5. lia.
    + intros ->. rewrite Hs6. lia.
  - exists (up_to HH), (up_to WW). split_and!; try done.
    apply fixed_crops_ul_eq.
  - exists (up_to HH), (from (- WW)). split_and!; try done.
    + apply fixed_crops_ur_eq.
    + intros ->. rewrite Hs4. lia.
  - exists (from (- HH)), (up_to WW). split_and!; try done.
    + apply fixed_crops_bl_eq.
    + intros ->. rewrite Hs3. lia.
  - exists (from (- HH)), (from (- WW)). split_and!; try done.
    + apply fixed_crops_br_eq.
    + intros ->. rewrite Hs3. lia.
    + intros ->. rewrite Hs4. lia.
Qed.
End WholeAxis.

(** X1. For a crop shape with 1 ≤ HH ≤ H and 1 ≤ WW ≤ W, the "ur" crop
    holds the first HH rows and the last WW columns of every channel, and
    the "bl" crop the last HH rows and the first WW columns; both have
    shape (N, C, HH, WW). *)
Theorem fixed_crops_ur_bl_windows {A : Type} (X : ndarray A)
    (N C H W : nat) (HH WW : Z) :
  well_shaped X → shape X = (N, C, H, W) →
  1 ≤ HH ≤ Z.of_nat H → 1 ≤ WW ≤ Z.of_nat W →
  ∃ Yur Ybl : ndarray A,
    fixed_crops X (HH, WW) "ur" = Ok Yur ∧
    fixed_crops X (HH, WW) "bl" = Ok Ybl ∧
    shape Yur = (N, C, Z.to_nat HH, Z.to_nat WW) ∧
    shape Ybl = (N, C, Z.to_nat HH, Z.to_nat WW) ∧
    ∀ n c h w : nat,
      (h < Z.to_nat HH)%nat → (w < Z.to_nat WW)%nat →
      sample Yur n c h w = sample X n c h (W - Z.to_nat WW + w)%nat ∧
      sample Ybl n c h w = sample X n c (H - Z.to_nat HH + h)%nat w.
Proof.
  intros HwX HX HHH HWW.
  destruct (slice_up_to_inside HH H) as [Hs1 Hl1]; [lia..|].
  destruct (slice_up_to_inside WW W) as [Hs2 Hl2]; [lia..|].
  destruct (slice_from_neg_inside HH H) as [Hs3 Hl3]; [lia..|].
  destruct (slice_from_neg_inside WW W) as [Hs4 Hl4]; [lia..|].
  exists (getitem_hw X (up_to HH) (from (- WW))),
    (getitem_hw X (from (- HH)) (up_to WW)).
  split_and!.
  - apply fixed_crops_ur_eq.
  - apply fixed_crops_bl_eq.
  - by rewrite (getitem_hw_shape X _ _ N C H W HX), Hl1, Hl4.
  - by rewrite (getitem_hw_shape X _ _ N C H W HX), Hl3, Hl2.
  - intros n c h w Hh Hw. split.
    + rewrite (sample_getitem_hw X _ _ N C H W) by (done || lia).
      rewrite Hs1, Hs4. do 2 f_equal; lia.
    + rewrite (sample_getitem_hw X _ _ N C H W) by (done || lia).
      rewrite Hs3, Hs2. do 2 f_equal; lia.
Qed.

Lemma fixed_crops_ur_bl_windows_witness :
  ∃ Yur Ybl : ndarray Z,
    fixed_crops batch_2x4x5 (3, 2) "ur" = Ok Yur ∧
    fixed_crops batch_2x4x5 (3, 2) "bl" = Ok Ybl ∧
    shape Yur = (2, 1, Z.to_nat 3, Z.to_nat 2)%nat ∧
    shape Ybl = (2, 1, Z.to_nat 3, Z.to_nat 2)%nat ∧
    ∀ n c h w : nat,
      (h < Z.to_nat 3)%nat → (w < Z.to_nat 2)%nat →
      sample Yur n c h w = sample batch_2x4x5 n c h (5 - Z.to_nat 2 + w)%nat ∧
      sample Ybl n c h w = sample batch_2x4x5 n c (4 - Z.to_nat 3 + h)%nat w.
Proof.
  apply (fixed_crops_ur_bl_windows batch_2x4x5 2 1 4 5 3 2).
  - compute_done.
  - reflexivity.
  - lia.
  - lia.
Defined.

(** X2. Cropping a batch to its own spatial size returns the batch itself,
    whatever the recognized tag. *)
Theorem fixed_crops_full_size {A : Type} (X : ndarray A)
    (N C H W : nat) (tag : string) :
  well_shaped X → shape X = (N, C, H, W) →
  tag ∈ ["center"; "ul"; "ur"; "bl"; "br"] →
  fixed_crops X (Z.of_nat H, Z.of_nat W) tag = Ok X.
Proof.
  intros HwX HX Htag.
  destruct (fixed_crops_window X N C H W (Z.of_nat H) (Z.of_nat W) tag)
    as (sh & sw & -> & Hlh & Hlw & Hsh & Hsw); [done|done|lia..|].
  rewrite Nat2Z.id in Hlh, Hlw. f_equal.
  apply (getitem_hw_full X sh sw N C H W); auto.
Qed.

Lemma fixed_crops_full_size_witness :
  fixed_crops batch_2x4x5 (Z.of_nat 4, Z.of_nat 5) "br" = Ok batch_2x4x5.
Proof.
  apply (fixed_crops_full_size batch_2x4x5 2 1 4 5 "br").
  - compute_done.
  - reflexivity.
  - compute_done.
Defined.

(** X3. Cropping is idempotent: a batch already cropped to (HH, WW), with
    any recognized tag, is returned unchanged when cropped again to
    (HH, WW), with any recognized tag. *)
Theorem fixed_crops_idempotent {A : Type} (X Y : ndarray A)
    (N C H W : nat) (HH WW : Z) (tag tag' : string) :
  well_shaped X → shape X = (N, C, H, W) →
  1 ≤ HH ≤ Z.of_nat H → 1 ≤ WW ≤ Z.of_nat W →
  tag ∈ ["center"; "ul"; "ur"; "bl"; "br"] →
  tag' ∈ ["center"; "ul"; "ur"; "bl"; "br"] →
  fixed_crops X (HH, WW) tag = Ok Y →
  fixed_crops Y (HH, WW) tag' = Ok Y.
Proof.
  intros HwX HX HHH HWW Htag Htag' HY.
  destruct (fixed_crops_window X N C H W HH WW tag)
    as (sh & sw & HY' & Hlh & Hlw & _ & _); [done|done|lia..|].
  rewrite HY in HY'. injection HY' as ->.
  pose proof (getitem_hw_well_shaped X sh sw HwX) as HwY.
  pose proof (getitem_hw_shape X sh sw N C H W HX) as HsY.
  rewrite Hlh, Hlw in HsY.
  destruct (fixed_crops_window (getitem_hw X sh sw) N C (Z.to_nat HH)
              (Z.to_nat WW) HH WW tag')
    as (sh' & sw' & -> & Hlh' & Hlw' & Hsh' & Hsw'); [done|done|lia..|].
  f_equal.
  apply (getitem_hw_full _ sh' sw' N C (Z.to_nat HH) (Z.to_nat WW));
    try done; (apply Hsh' || apply Hsw'); lia.
Qed.

Lemma fixed_crops_idempotent_witness :
  fixed_crops (getitem_hw batch_2x4x5 (up_to 3) (from (- 2))) (3, 2) "center"
  = Ok (getitem_hw batch_2x4x5 (up_to 3) (from (- 2))).
Proof.
  apply (fixed_crops_idempotent batch_2x4x5 _ 2 1 4 5 3 2 "ur" "center").
  - compute_done.
  - reflexivity.
  - lia.
  - lia.
  - compute_done.
  - compute_done.
  - reflexivity.
Defined.

(** ** More on [random_crops] *)

(** X4. A random crop never reaches the last row or the last column of the
    images: the offsets satisfy x < H - HH and y < W - WW, so every sample
    of the result comes from a row below H - 1 and a column below W - 1
    of [X]. *)
Theorem random_crops_skips_last_row_and_column {G : Type}
    {RS : RandomState G} {A : Type} (zero : A) (X : ndarray A)
    (N C H W : nat) (HH WW : Z) (g : G) :
  well_shaped X → shape X = (N, C, H, W) →
  0 ≤ HH < Z.of_nat H → 0 ≤ WW < Z.of_nat W →
  ∃ (Y : ndarray A) (g' : G),
    random_crops zero X (HH, WW) g = (Ok Y, g') ∧
    ∀ n c h w : nat,
      (h < Z.to_nat HH)%nat → (w < Z.to_nat WW)%nat →
      ∃ h' w' : nat,
        (h' < H - 1)%nat ∧ (w' < W - 1)%nat ∧
        sample Y n c h w = sample X n c h' w'.
Proof.
  intros HwX HX HHH HWW.
  rewrite (random_crops_window zero X N C H W) by done. simpl.
  pose proof (randint_range (Z.of_nat H - HH) g) as Hx.
  destruct (randint (Z.of_nat H - HH) g) as [x g1]. simpl in *.
  pose proof (randint_range (Z.of_nat W - WW) g1) as Hy.
  destruct (randint (Z.of_nat W - WW) g1) as [y g2]. simpl in *.
  specialize (Hx ltac:(lia)). specialize (Hy ltac:(lia)).
  destruct (slice_from_to_inside x (x + HH) H) as [Hsx Hlx]; [lia..|].
  destruct (slice_from_to_inside y (y + WW) W) as [Hsy Hly]; [lia..|].
  replace (x + HH - x) with HH in Hlx by lia.
  replace (y + WW - y) with WW in Hly by lia.
  eexists _, g2. split; [reflexivity|].
  intros n c h w Hh Hw.
  exists (Z.to_nat x + h)%nat, (Z.to_nat y + w)%nat. split_and!; [lia..|].
  rewrite (sample_getitem_hw X _ _ N C H W) by (done || lia).
  by rewrite Hsx, Hsy.
Qed.

Lemma random_crops_skips_last_row_and_column_witness :
  ∃ (Y : ndarray Z) (g' : Z),
    random_crops 0 batch_2x4x5 (2, 3) (7 : Z) = (Ok Y, g') ∧
    ∀ n c h w : nat,
      (h < Z.to_nat 2)%nat → (w < Z.to_nat 3)%nat →
      ∃ h' w' : nat,
        (h' < 4 - 1)%nat ∧ (w' < 5 - 1)%nat ∧
        sample Y n c h w = sample batch_2x4x5 n c h' w'.
Proof.
  apply (random_crops_skips_last_row_and_column 0 batch_2x4x5 2 1 4 5 2 3
           (7 : Z)).
  - compute_done.
  - reflexivity.
  - lia.
  - lia.
Defined.

(** X5. [random_crops] returns an array exactly when 0 ≤ HH < H and
    0 ≤ WW < W. A crop shape that passes the assertion but has a negative
    entry is refused by [np.zeros] with a [ValueError], before anything is
    drawn; the message is "Maximum allowed dimension exceeded" when an
    entry lies below -2^63 and "negative dimensions are not allowed"
    otherwise. *)
Theorem random_crops_outcomes {G : Type} {RS : RandomState G}
    {A : Type} (zero : A) (X : ndarray A) (N C H W : nat) (HH WW : Z)
    (g : G) :
  shape X = (N, C, H, W) →
  ((∃ Y, (random_crops zero X (HH, WW) g).1 = Ok Y) ↔
   (0 ≤ HH < Z.of_nat H ∧ 0 ≤ WW < Z.of_nat W)) ∧
  (HH < Z.of_nat H → WW < Z.of_nat W → HH < 0 ∨ WW < 0 →
   random_crops zero X (HH, WW) g =
   (Raise (ValueError
      (if (HH <? - 2 ^ 63) || (WW <? - 2 ^ 63)
       then "Maximum allowed dimension exceeded"
       else "negative dimensions are not allowed")), g)).
Proof.
  intros HX. split.
  - split.
    + intros [Y HY].
      destruct (decide (Z.of_nat H ≤ HH ∨ Z.of_nat W ≤ WW)) as [Hbad|Hok].
      { rewrite (random_crops_assert zero X N C H W) in HY by done.
        discriminate. }
      destruct (decide (HH < 0 ∨ WW < 0)) as [Hneg|Hpos]; [|lia].
      rewrite (random_crops_negative zero X N C H W) in HY by (done || lia).
      discriminate.
    + intros [HHH HWW].
      rewrite (random_crops_window zero X N C H W) by done. by eexists.
  - intros. by apply (random_crops_negative zero X N C H W).
Qed.

Lemma random_crops_outcomes_witness :
  ((∃ Y, (random_crops 0 batch_2x4x5 (-1, 3) (7 : Z)).1 = Ok Y) ↔
   (0 ≤ -1 < Z.of_nat 4 ∧ 0 ≤ 3 < Z.of_nat 5)) ∧
  (-1 < Z.of_nat 4 → 3 < Z.of_nat 5 → -1 < 0 ∨ 3 < 0 →
   random_crops 0 batch_2x4x5 (-1, 3) (7 : Z) =
   (Raise (ValueError
      (if (-1 <? - 2 ^ 63) || (3 <? - 2 ^ 63)
       then "Maximum allowed dimension exceeded"
       else "negative dimensions are not allowed")), 7)).
Proof.
  apply (random_crops_outcomes 0 batch_2x4x5 2 1 4 5 (-1) 3 (7 : Z)).
  reflexivity.
Defined.

Example random_crops_huge_negative :
  random_crops 0 batch_2x4x5 (- 2 ^ 70, 3) (7 : Z) =
  (Raise (ValueError "Maximum allowed dimension exceeded"), 7).
Proof. reflexivity. Qed.

Example random_crops_small_negative :
  random_crops 0 batch_2x4x5 (-1, 3) (7 : Z) =
  (Raise (ValueError "negative dimensions are not allowed"), 7).
Proof. reflexivity. Qed.

(** ** More on [random_flips] *)

Section FlipsMore.
Context {G : Type} {RS : RandomState G} {A : Type} (zero : A).
Implicit Types (X Y : ndarray A) (g : G) (img : list (list (list A))).

Lemma flip_image_involutive img : flip_image (flip_image img) = img.
Proof.
  unfold flip_image, flip_channel. apply list_eq. intros c.
  rewrite !list_lookup_fmap. destruct (img !! c) as [ch|]; [|done].
  simpl. f_equal. apply list_eq. intros h. rewrite !list_lookup_fmap.
  destruct (ch !! h) as [r|]; [|done]. simpl.
  by rewrite reverse_involutive.
Qed.

Lemma random_flips_image X N C H W g (n : nat) img :
  well_shaped X → shape X = (N, C, H, W) →
  data X !! n = Some img →
  ∃ b : bool,
    data (random_flips zero X g).1 !! n =
    Some (if b then flip_image img else img).
Proof.
  intros HwX HX Himg. rewrite (random_flips_eq zero X N C H W) by done.
  simpl. pose proof (randint_size_length 2 N g) as Hlen.
  destruct (randint_size 2 N g) as [mask g1]. simpl in *.
  unfold well_shaped in HwX. rewrite HX in HwX. destruct HwX as [HN _].
  destruct (lookup_lt_is_Some_2 mask n) as [b Hb].
  { apply lookup_lt_Some in Himg. lia. }
  exists (b =? 1). by rewrite lookup_zip_with, Hb, Himg.
Qed.

Lemma random_flips_well_shaped X N C H W g :
  well_shaped X → shape X = (N, C, H, W) →
  well_shaped (random_flips zero X g).1 ∧
  shape (random_flips zero X g).1 = (N, C, H, W).
Proof.
  intros HwX HX. rewrite (random_flips_eq zero X N C H W) by done.
  simpl. pose proof (randint_size_length 2 N g) as Hlen.
  destruct (randint_size 2 N g) as [mask g1]. simpl in *.
  unfold well_shaped in *. rewrite HX in HwX. simpl.
  destruct HwX as [HN Himgs]. rewrite Forall_lookup in Himgs.
  split; [|done]. split.
  - rewrite length_zip_with. lia.
  - apply Forall_lookup. intros n img' Hn.
    apply lookup_zip_with_Some in Hn as (b & img & -> & Hb & Himg).
    destruct (b =? 1); [apply flip_image_shaped|]; by eapply Himgs.
Qed.
End FlipsMore.

(** X6. [random_flips] only reorders samples within a row: every row of
    the result is a permutation of the row of [X] at the same image,
    channel and height. *)
Theorem random_flips_permutes_rows {G : Type} {RS : RandomState G}
    {A : Type} (zero : A) (X : ndarray A) (N C H W : nat) (g : G)
    (n c h : nat) (r : list A) :
  well_shaped X → shape X = (N, C, H, W) →
  row X n c h = Some r →
  ∃ r' : list A, row (random_flips zero X g).1 n c h = Some r' ∧ r' ≡ₚ r.
Proof.
  intros HwX HX Hr. unfold row in *.
  destruct (data X !! n) as [img|] eqn:Himg; [|done]. simpl in Hr.
  destruct (random_flips_image zero X N C H W g n img HwX HX Himg)
    as [b ->]. simpl.
  destruct (img !! c) as [ch|] eqn:Hch; [|done]. simpl in Hr.
  destruct b.
  - exists (reverse r). split; [|apply reverse_Permutation].
    unfold flip_image, flip_channel. rewrite list_lookup_fmap, Hch. simpl.
    by rewrite list_lookup_fmap, Hr.
  - exists r. split; [|done]. by rewrite Hch.
Qed.

Lemma random_flips_permutes_rows_witness :
  ∃ r' : list Z,
    row (random_flips 0 batch_2x4x5 (7 : Z)).1 0 0 1 = Some r' ∧
    r' ≡ₚ [5; 6; 7; 8; 9].
Proof.
  apply (random_flips_permutes_rows 0 batch_2x4x5 2 1 4 5 (7 : Z) 0 0 1).
  - compute_done.
  - reflexivity.
  - reflexivity.
Defined.

(** X7. Flipping twice stays within the two possibilities: after two
    successive calls of [random_flips], every image is the image of [X] at
    the same index or its mirror image. *)
Theorem random_flips_twice {G : Type} {RS : RandomState G}
    {A : Type} (zero : A) (X : ndarray A) (N C H W : nat) (g : G)
    (n : nat) (img : list (list (list A))) :
  well_shaped X → shape X = (N, C, H, W) →
  image X n = Some img →
  image (random_flips zero (random_flips zero X g).1
           (random_flips zero X g).2).1 n = Some img ∨
  image (random_flips zero (random_flips zero X g).1
           (random_flips zero X g).2).1 n = Some (flip_image img).
Proof.
  intros HwX HX Himg. unfold image in *.
  destruct (random_flips_image zero X N C H W g n img HwX HX Himg)
    as [b1 H1].
  destruct (random_flips_well_shaped zero X N C H W g HwX HX) as [Hw1 Hs1].
  destruct (random_flips_image zero _ N C H W (random_flips zero X g).2 n _
              Hw1 Hs1 H1) as [b2 ->].
  destruct b1, b2; rewrite ?flip_image_involutive; auto.
Qed.

Lemma random_flips_twice_witness :
  image (random_flips 0 (random_flips 0 batch_3x3 (7 : Z)).1
           (random_flips 0 batch_3x3 (7 : Z)).2).1 0 =
    Some [[[1; 2; 3]; [4; 5; 6]; [7; 8; 9]]] ∨
  image (random_flips 0 (random_flips 0 batch_3x3 (7 : Z)).1
           (random_flips 0 batch_3x3 (7 : Z)).2).1 0 =
    Some (flip_image [[[1; 2; 3]; [4; 5; 6]; [7; 8; 9]]]).
Proof.
  apply (random_flips_twice 0 batch_3x3 1 1 3 3 (7 : Z) 0).
  - compute_done.
  - reflexivity.
  - reflexivity.
Defined.

(** ** More on [random_contrast] and [random_tint] *)

Section ArithmeticMore.
Context {G : Type} {RS : RandomState G}.
Implicit Types (X Y : ndarray float) (g : G).

Lemma random_contrast_eq X (low high : float) g :
  random_contrast X (low, high) g =
  (scale_array X (uniform low high g).1, (uniform low high g).2).
Proof.
  unfold random_contrast. by destruct (uniform low high g).
Qed.

Lemma random_tint_eq X N C H W (low high : float) g :
  shape X = (N, C, H, W) →
  random_tint X (low, high) g =
  (add_per_channel X
     (fmap (M := list)
        (fmap (M := list) (λ v, ((high - low) * v + low)%float))
        (random_sample_size2 N C g).1),
   (random_sample_size2 N C g).2).
Proof.
  intros HX. unfold random_tint. rewrite HX. simpl.
  by destruct (random_sample_size2 N C g).
Qed.

Lemma tint_offsets_shape N C (low high : float) g :
  length (fmap (M := list)
            (fmap (M := list) (λ v, ((high - low) * v + low)%float))
            (random_sample_size2 N C g).1) = N ∧
  Forall (λ r : list float, length r = C)
    (fmap (M := list)
       (fmap (M := list) (λ v, ((high - low) * v + low)%float))
       (random_sample_size2 N C g).1).
Proof.
  destruct (random_sample_size2_shape N C g) as [Hlen Hrows].
  split; [by rewrite length_fmap|].
  apply Forall_fmap. eapply Forall_impl; [exact Hrows|].
  intros r [Hr _]. simpl. by rewrite length_fmap.
Qed.

Lemma scale_array_well_shaped X (f : float) :
  well_shaped X → well_shaped (scale_array X f).
Proof.
  unfold well_shaped, scale_array. simpl.
  destruct (shape X) as [[[N C] H] W]. intros [HN Himgs]. split.
  - by rewrite length_fmap.
  - apply Forall_fmap. eapply Forall_impl; [exact Himgs|].
    intros img [HC Hchs]. split; [by rewrite length_fmap|].
    apply Forall_fmap. eapply Forall_impl; [exact Hchs|].
    intros ch [HH Hrows]. split; [by rewrite length_fmap|].
    apply Forall_fmap. eapply Forall_impl; [exact Hrows|].
    intros r Hr. simpl. by rewrite length_fmap.
Qed.

Lemma add_channel_shaped H W (ch : list (list float)) (t : float) :
  channel_shaped H W ch → channel_shaped H W (add_channel ch t).
Proof.
  intros [HH Hrows]. unfold add_channel. split; [by rewrite length_fmap|].
  apply Forall_fmap. eapply Forall_impl; [exact Hrows|].
  intros r Hr. simpl. by rewrite length_fmap.
Qed.

Lemma add_per_channel_well_shaped X N C H W (l : list (list float)) :
  well_shaped X → shape X = (N, C, H, W) →
  length l = N → Forall (λ r, length r = C) l →
  well_shaped (add_per_channel X l).
Proof.
  unfold well_shaped, add_per_channel. simpl. intros HwX HX Hl HlC.
  rewrite HX in *. destruct HwX as [HN Himgs].
  rewrite Forall_lookup in Himgs. rewrite Forall_lookup in HlC. split.
  - rewrite length_zip_with. lia.
  - apply Forall_lookup. intros n img' Hn.
    apply lookup_zip_with_Some in Hn as (img & ts & -> & Himg & Hts).
    destruct (Himgs _ _ Himg) as [HC Hchs].
    pose proof (HlC _ _ Hts) as HtsC. simpl in HtsC.
    rewrite Forall_lookup in Hchs. split.
    + rewrite length_zip_with. lia.
    + apply Forall_lookup. intros c ch' Hc.
      apply lookup_zip_with_Some in Hc as (ch & t & -> & Hch & Ht).
      by apply add_channel_shaped, (Hchs c).
Qed.
End ArithmeticMore.

(** X8. [random_contrast] and [random_tint] keep the shape: on a
    well-shaped batch of shape (N, C, H, W) both return a well-shaped batch
    of shape (N, C, H, W), whatever the scale pair. *)
Theorem arithmetic_transforms_keep_shape {G : Type} {RS : RandomState G}
    (X : ndarray float) (N C H W : nat) (scale : float * float) (g : G) :
  well_shaped X → shape X = (N, C, H, W) →
  well_shaped (random_contrast X scale g).1 ∧
  shape (random_contrast X scale g).1 = (N, C, H, W) ∧
  well_shaped (random_tint X scale g).1 ∧
  shape (random_tint X scale g).1 = (N, C, H, W).
Proof.
  intros HwX HX. destruct scale as [low high].
  rewrite random_contrast_eq, (random_tint_eq X N C H W) by done. simpl.
  destruct (tint_offsets_shape N C low high g) as [Hl HlC].
  split_and!; try done.
  - by apply scale_array_well_shaped.
  - by apply (add_per_channel_well_shaped X N C H W).
Qed.

Lemma arithmetic_transforms_keep_shape_witness :
  well_shaped (random_contrast batch_f (2%float, 4%float) (7 : Z)).1 ∧
  shape (random_contrast batch_f (2%float, 4%float) (7 : Z)).1 =
    (1, 2, 1, 2)%nat ∧
  well_shaped (random_tint batch_f (2%float, 4%float) (7 : Z)).1 ∧
  shape (random_tint batch_f (2%float, 4%float) (7 : Z)).1 = (1, 2, 1, 2)%nat.
Proof.
  apply (arithmetic_transforms_keep_shape batch_f 1 2 1 2 (2%float, 4%float)
           (7 : Z)).
  - compute_done.
  - reflexivity.
Defined.

(** ** Views and new buffers *)

Section Aliasing.
Context {A G : Type} {RS : RandomState G}.
Implicit Types (h : gmap loc (ndarray A)) (σ : state A G) (r X : aref).

Lemma unused_not_base h l X x :
  h !! l = None → deref h X = Some x → l ≠ base X.
Proof.
  intros Hl HX ->. unfold deref in HX. by rewrite Hl in HX.
Qed.

Lemma deref_insert_other h l X (v : ndarray A) :
  l ≠ base X → deref (<[base X := v]> h) (ARef l []) = deref h (ARef l []).
Proof.
  intros Hne. unfold deref. simpl. by rewrite lookup_insert_ne.
Qed.
End Aliasing.

Section AliasingArithmetic.
Context {G : Type} {RS : RandomState G}.
Implicit Types (σ : state float G) (X : aref).

Lemma random_contrast_st_run X x scale σ :
  deref (heap σ) X = Some x →
  random_contrast_st X scale σ =
  Some (Ok (ARef (fresh (dom (<[fresh (dom (heap σ)) := zeros_like 0%float x]>
                               (heap σ)))) []),
        State (<[fresh (dom (<[fresh (dom (heap σ)) := zeros_like 0%float x]>
                               (heap σ))) :=
                   (random_contrast x scale (rng σ)).1]>
                 (<[fresh (dom (heap σ)) := zeros_like 0%float x]> (heap σ)))
              (random_contrast x scale (rng σ)).2).
Proof.
  intros HX. unfold random_contrast_st, random_contrast.
  destruct scale as [low high].
  pose proof (fresh_unused (heap σ)) as Hl.
  destruct (uniform low high (rng σ)) as [scalar g1] eqn:Hu.
  rewrite (bind_load X x) by done. rewrite bind_new, bind_draw.
  simpl rng. rewrite Hu. simpl fst. simpl snd.
  rewrite (bind_load X x) by (simpl; by apply deref_insert_unused).
  rewrite bind_new. reflexivity.
Qed.

Lemma random_tint_st_run X x scale σ :
  deref (heap σ) X = Some x →
  random_tint_st X scale σ =
  Some (Ok (ARef (fresh (dom (<[fresh (dom (heap σ)) := zeros_like 0%float x]>
                               (heap σ)))) []),
        State (<[fresh (dom (<[fresh (dom (heap σ)) := zeros_like 0%float x]>
                               (heap σ))) :=
                   (random_tint x scale (rng σ)).1]>
                 (<[fresh (dom (heap σ)) := zeros_like 0%float x]> (heap σ)))
              (random_tint x scale (rng σ)).2).
Proof.
  intros HX. unfold random_tint_st, random_tint.
  destruct scale as [low high].
  pose proof (fresh_unused (heap σ)) as Hl.
  destruct ((shape x).1.1) as [N C] eqn:Hx.
  destruct (random_sample_size2 N C (rng σ)) as [u g1] eqn:Hu.
  rewrite (bind_load X x) by done. rewrite Hx.
  rewrite bind_new, bind_draw.
  simpl rng. rewrite Hu. simpl fst. simpl snd.
  rewrite (bind_load X x) by (simpl; by apply deref_insert_unused).
  rewrite bind_new. reflexivity.
Qed.
End AliasingArithmetic.

(** X12. The crops return views: the object that [random_crops] or
    [fixed_crops] returns names the buffer of [X] with one more slice, so
    in every store it denotes that window of whatever [X] denotes, and a
    later change of the buffer shows through it. [fixed_crops] moreover
    leaves the store and the generator exactly as they were. *)
Theorem crops_return_views {G : Type} {RS : RandomState G} {A : Type}
    (zero : A) (σ : state A G) (X : aref) (x : ndarray A)
    (crop_shape : Z * Z) (crop_type : string) :
  deref (heap σ) X = Some x →
  (∀ (r : aref) (σ' : state A G),
     random_crops_st zero X crop_shape σ = Some (Ok r, σ') →
     ∃ sh sw : slice,
       r = view X sh sw ∧
       ∀ h : gmap loc (ndarray A),
         deref h r = (λ y, getitem_hw y sh sw) <$> deref h X) ∧
  (∀ (r : aref) (σ' : state A G),
     fixed_crops_st X crop_shape crop_type σ = Some (Ok r, σ') →
     σ' = σ ∧
     ∃ sh sw : slice,
       r = view X sh sw ∧
       ∀ h : gmap loc (ndarray A),
         deref h r = (λ y, getitem_hw y sh sw) <$> deref h X).
Proof.
  intros HX. destruct crop_shape as [HH WW]. split; intros r σ'.
  - unfold random_crops_st. rewrite (bind_load X x) by done.
    destruct (shape x) as [[[N C] H] W].
    destruct (negb ((HH <? Z.of_nat H) && (WW <? Z.of_nat W)));
      [discriminate|].
    destruct (np_zeros zero N C HH WW) as [z|e]; [|discriminate].
    rewrite bind_new, bind_draw, bind_draw. intros Hrun.
    injection Hrun as <- _. eexists _, _. split; [reflexivity|].
    intros h. apply deref_view.
  - unfold fixed_crops_st. rewrite (bind_load X x) by done.
    destruct (shape x) as [[[N C] H] W].
    repeat case_match; try discriminate; intros Hrun;
      injection Hrun as <- <-; (split; [done|]);
      eexists _, _; (split; [reflexivity|]); intros h; apply deref_view.
Qed.

Lemma crops_return_views_witness :
  (∀ (r : aref) (σ' : state Z Z),
     random_crops_st 0 lower_rows (1, 2) store_3x3 = Some (Ok r, σ') →
     ∃ sh sw : slice,
       r = view lower_rows sh sw ∧
       ∀ h : gmap loc (ndarray Z),
         deref h r = (λ y, getitem_hw y sh sw) <$> deref h lower_rows) ∧
  (∀ (r : aref) (σ' : state Z Z),
     fixed_crops_st lower_rows (1, 2) "br" store_3x3 = Some (Ok r, σ') →
     σ' = store_3x3 ∧
     ∃ sh sw : slice,
       r = view lower_rows sh sw ∧
       ∀ h : gmap loc (ndarray Z),
         deref h r = (λ y, getitem_hw y sh sw) <$> deref h lower_rows).
Proof.
  apply (crops_return_views 0 store_3x3 lower_rows
           (NdArray (1, 1, 2, 3)%nat [[[[4; 5; 6]; [7; 8; 9]]]]) (1, 2) "br").
  reflexivity.
Defined.

(** X13. [random_flips], [random_contrast] and [random_tint] return a new
    buffer: the object they return names a location that held no buffer
    before the call, and a later change of the buffer of [X] does not
    change the array it denotes. *)
Theorem transforms_return_new_buffers {G : Type} {RS : RandomState G}
    {A : Type} (zero : A) (σ : state A G) (σq : state float G) (X Xq : aref)
    (x : ndarray A) (xq : ndarray float) (scale : float * float) :
  deref (heap σ) X = Some x → deref (heap σq) Xq = Some xq →
  (∃ (l : loc) (σ' : state A G),
     random_flips_st zero X σ = Some (Ok (ARef l []), σ') ∧
     heap σ !! l = None ∧
     ∀ v, deref (<[base X := v]> (heap σ')) (ARef l []) =
          deref (heap σ') (ARef l [])) ∧
  (∃ (l : loc) (σ' : state float G),
     random_contrast_st Xq scale σq = Some (Ok (ARef l []), σ') ∧
     heap σq !! l = None ∧
     ∀ v, deref (<[base Xq := v]> (heap σ')) (ARef l []) =
          deref (heap σ') (ARef l [])) ∧
  (∃ (l : loc) (σ' : state float G),
     random_tint_st Xq scale σq = Some (Ok (ARef l []), σ') ∧
     heap σq !! l = None ∧
     ∀ v, deref (<[base Xq := v]> (heap σ')) (ARef l []) =
          deref (heap σ') (ARef l [])).
Proof.
  intros HX HXq.
  pose proof (fresh_unused (heap σ)) as Hl.
  pose proof (fresh_unused (<[fresh (dom (heap σq)) := zeros_like 0%float xq]>
                              (heap σq))) as Hl2.
  apply lookup_insert_None in Hl2 as [Hl2 _].
  split_and!.
  - eexists _, _. split; [by apply random_flips_st_run|].
    split; [done|]. intros v.
    by apply deref_insert_other, (unused_not_base (heap σ) _ X x).
  - eexists _, _. split; [by apply random_contrast_st_run|].
    split; [done|]. intros v.
    by apply deref_insert_other, (unused_not_base (heap σq) _ Xq xq).
  - eexists _, _. split; [by apply random_tint_st_run|].
    split; [done|]. intros v.
    by apply deref_insert_other, (unused_not_base (heap σq) _ Xq xq).
Qed.

Lemma transforms_return_new_buffers_witness :
  (∃ (l : loc) (σ' : state Z Z),
     random_flips_st 0 lower_rows store_3x3 = Some (Ok (ARef l []), σ') ∧
     heap store_3x3 !! l = None ∧
     ∀ v, deref (<[base lower_rows := v]> (heap σ')) (ARef l []) =
          deref (heap σ') (ARef l [])) ∧
  (∃ (l : loc) (σ' : state float Z),
     random_contrast_st whole (2%float, 4%float) store_f =
       Some (Ok (ARef l []), σ') ∧
     heap store_f !! l = None ∧
     ∀ v, deref (<[base whole := v]> (heap σ')) (ARef l []) =
          deref (heap σ') (ARef l [])) ∧
  (∃ (l : loc) (σ' : state float Z),
     random_tint_st whole (2%float, 4%float) store_f =
       Some (Ok (ARef l []), σ') ∧
     heap store_f !! l = None ∧
     ∀ v, deref (<[base whole := v]> (heap σ')) (ARef l []) =
          deref (heap σ') (ARef l [])).
Proof.
  apply (transforms_return_new_buffers 0 store_3x3 store_f lower_rows whole
           (NdArray (1, 1, 2, 3)%nat [[[[4; 5; 6]; [7; 8; 9]]]]) batch_f
           (2%float, 4%float)).
  - reflexivity.
  - reflexivity.
Defined.

(** ** Oversized corner crops *)

Lemma slice_up_to_beyond (b : Z) (len : nat) :
  Z.of_nat len ≤ b →
  slice_start (up_to b) len = 0%nat ∧ slice_len (up_to b) len = len.
Proof.
  intros Hb. unfold slice_len, slice_start, slice_stop, adjust_index.
  simpl. destruct (Z.ltb_spec b 0); lia.
Qed.

Lemma slice_from_neg_beyond (b : Z) (len : nat) :
  Z.of_nat len ≤ b →
  slice_start (from (- b)) len = 0%nat ∧ slice_len (from (- b)) len = len.
Proof.
  intros Hb. unfold slice_len, slice_start, slice_stop, adjust_index.
  simpl. destruct (Z.ltb_spec (- b) 0); lia.
Qed.

(** X14. A corner crop at least as large as the images in both directions
    returns the whole batch unchanged, for each of "ul", "ur", "bl" and
    "br": the slices are clipped to the axes and no error is raised. *)
Theorem fixed_crops_oversized_corner {A : Type} (X : ndarray A)
    (N C H W : nat) (HH WW : Z) (tag : string) :
  well_shaped X → shape X = (N, C, H, W) →
  Z.of_nat H ≤ HH → Z.of_nat W ≤ WW →
  tag ∈ ["ul"; "ur"; "bl"; "br"] →
  fixed_crops X (HH, WW) tag = Ok X.
Proof.
  intros HwX HX HHH HWW Htag.
  destruct (slice_up_to_beyond HH H HHH) as [Hs1 Hl1].
  destruct (slice_up_to_beyond WW W HWW) as [Hs2 Hl2].
  destruct (slice_from_neg_beyond HH H HHH) as [Hs3 Hl3].
  destruct (slice_from_neg_beyond WW W HWW) as [Hs4 Hl4].
  repeat (apply elem_of_cons in Htag as [->|Htag]);
    [..|by apply elem_of_nil in Htag].
  - rewrite fixed_crops_ul_eq. f_equal.
    by apply (getitem_hw_full X _ _ N C H W).
  - rewrite fixed_crops_ur_eq. f_equal.
    by apply (getitem_hw_full X _ _ N C H W).
  - rewrite fixed_crops_bl_eq. f_equal.
    by apply (getitem_hw_full X _ _ N C H W).
  - rewrite fixed_crops_br_eq. f_equal.
    by apply (getitem_hw_full X _ _ N C H W).
Qed.

Lemma fixed_crops_oversized_corner_witness :
  fixed_crops batch_2x4x5 (9, 5) "bl" = Ok batch_2x4x5.
Proof.
  apply (fixed_crops_oversized_corner batch_2x4x5 2 1 4 5 9 5 "bl").
  - compute_done.
  - reflexivity.
  - lia.
  - lia.
  - compute_done.
Defined.
